(** * MidasNet (src/dpt/midas_net.py): construction and forward pass

    The network is an assembly of modules of a numerical library (torch) and
    of the repository's own building blocks.  The numerical kernels are
    opaque: they are an interface ([TorchLib]) and every result below holds
    for all of its implementations.  What is embedded here is the Python of
    [MidasNet.__init__] and [MidasNet.forward]: the reads of the [blocks]
    configuration mapping, the selection of sub-modules, the order of the
    calls and the exceptions the code raises on its own. *)

From Stdlib Require Import ZArith QArith String List.
From stdpp Require Import base option list strings gmap.

Open Scope string_scope.
Open Scope Z_scope.
Open Scope list_scope.

Set Warnings "-register-all".

(** ** Python values held by the configuration *)

Inductive PyVal :=
  | PyNone
  | PyBool (b : bool)
  | PyInt (z : Z)
  | PyFloat (q : Q)
  | PyStr (s : string)
  | PyList (l : list PyVal).

(** The numeric tower: [True == 1 == 1.0]. *)
Definition py_num (v : PyVal) : option Q :=
  match v with
  | PyBool b => Some (if b then 1%Q else 0%Q)
  | PyInt z => Some (inject_Z z)
  | PyFloat q => Some q
  | _ => None
  end.

(** Python's [a == b]. *)
Fixpoint py_eq (a b : PyVal) : bool :=
  match py_num a, py_num b with
  | Some x, Some y => Qeq_bool x y
  | None, None =>
      match a, b with
      | PyNone, PyNone => true
      | PyStr s, PyStr t => String.eqb s t
      | PyList l, PyList k =>
          (fix go (l k : list PyVal) : bool :=
             match l, k with
             | [], [] => true
             | x :: l', y :: k' => py_eq x y && go l' k'
             | _, _ => false
             end) l k
      | _, _ => false
      end
  | _, _ => false
  end.

(** Python's truth value, [if v:]. *)
Definition py_truthy (v : PyVal) : bool :=
  match v with
  | PyNone => false
  | PyBool b => b
  | PyInt z => negb (z =? 0)
  | PyFloat q => negb (Qeq_bool q 0)
  | PyStr s => negb (String.eqb s "")
  | PyList l => match l with [] => false | _ => true end
  end.

Abbreviation PyTrue := (PyBool true).

Abbreviation PyFalse := (PyBool false).

(** ** Exceptions *)

Inductive PyErr :=
  | KeyError (key : string)            (* d[key] with key absent *)
  | NameError (name : string)          (* a name that is bound nowhere *)
  | UnboundLocalError (name : string)  (* a local read before assignment *)
  | AttributeError (name : string)     (* obj.name with name absent *)
  | LibError (msg : string).

(** ** Module descriptions *)

Inductive Stage := S1 | S2 | S3 | S4.

(** What a constructor call was given.  [Interpolate] and
    [FeatureFusionBlock_custom] are the repository's blocks;
    an argument the call site leaves out is [None].  [Opaque] is a module
    handed over by the encoder factory. *)
Inductive Layer :=
  | Conv2d (in_channels out_channels kernel_size stride padding groups : Z)
           (bias : bool)
  | BatchNorm2d (num_features : Z)
  | ReLU (inplace : bool)
  | LeakyReLU (negative_slope : Q)
  | Identity
  | Dropout (p : Q) (inplace : bool)
  | Interpolate (scale_factor : Z) (mode : string) (align_corners : option PyVal)
  | FeatureFusionBlock_custom (features : Z) (activation : Layer)
                              (deconv bn : bool) (expand : option bool)
                              (align_corners : PyVal)
  | Opaque (tag : string).

(** [self.pretrained]: which attributes the object has.  [model] is present
    for the hook-based encoders, [layer1..layer4] for the others. *)
Record ViTModel := { patch_size : option PyVal }.

Record Pretrained := {
  model : option ViTModel;
  layer1 : option Layer;
  layer2 : option Layer;
  layer3 : option Layer;
  layer4 : option Layer;
  norm_frozen : bool
}.

(** Arguments of [_make_encoder] as [__init__] passes them. *)
Record EncArgs := {
  ea_backbone : string;
  ea_features : Z;
  ea_use_pretrained : bool;
  ea_groups : Z;
  ea_expand : bool;
  ea_exportable : PyVal;
  ea_hooks : PyVal;
  ea_use_readout : PyVal
}.

(** Where a module sits in the model; its parameters live there. *)
Inductive Slot :=
  | pretrained_layer (i : Stage)
  | scratch_layer_rn (i : Stage)
  | scratch_refinenet (i : Stage)
  | scratch_output_conv (k : nat)
  | auxlayer_item (k : nat).

(** ** The numerical library and the collaborators

    Every operation may fail with a message.  The parameter values are
    part of the implementation, so one implementation is one fixed set of
    weights.  An operation is a function of its arguments: the random
    state drawn on by dropout and the running statistics kept by batch
    normalisation in training mode are left out. *)

Class TorchLib := {
  tensor : Type;
  shape : tensor → list Z;
  (* calling a module on its arguments *)
  module_call : Slot → Layer → list tensor → string + tensor;
  (* forward_vit(pretrained, x) *)
  forward_vit : Pretrained → tensor → string + (tensor * tensor * tensor * tensor);
  (* x.contiguous(memory_format=torch.channels_last) *)
  contiguous : tensor → string + tensor;
  (* x * v, x + v *)
  tensor_mul : tensor → PyVal → string + tensor;
  tensor_add : tensor → PyVal → string + tensor;
  (* F.interpolate(x, size=size, mode=mode, align_corners=ac) *)
  interpolate : tensor → list Z → string → PyVal → string + tensor;
  (* torch.squeeze(x, dim=dim) *)
  squeeze : tensor → nat → string + tensor;
  (* _make_encoder(...): (pretrained, scratch.layer1_rn .. layer4_rn) *)
  _make_encoder : EncArgs → string + (Pretrained * (Layer * Layer * Layer * Layer));
  (* a constructor call; None when it returns *)
  new_module : Layer → option string;
  (* self.load(path) *)
  load : PyVal → option string;
  (* the loop that freezes the normalisation layers of the encoder *)
  freeze_norm : Pretrained → string + Pretrained
}.

(** ** The configuration mapping *)

(** [k in d and d[k] == v] *)
Definition blocks_flag (d : gmap string PyVal) (k : string) (v : PyVal) : bool :=
  match d !! k with
  | Some w => py_eq w v
  | None => false
  end.

(** [x = dflt; if k in d: x = d[k]] *)
Definition blocks_get (d : gmap string PyVal) (k : string) (dflt : PyVal) : PyVal :=
  match d !! k with
  | Some w => w
  | None => dflt
  end.

(** [if "activation" not in d: d["activation"] = None] *)
Definition set_default_activation (d : gmap string PyVal) : gmap string PyVal :=
  match d !! "activation" with
  | Some _ => d
  | None => <["activation" := PyNone]> d
  end.

(** ** The model *)

Record Scratch := {
  layer1_rn : Layer;
  layer2_rn : Layer;
  layer3_rn : Layer;
  layer4_rn : Layer;
  activation : Layer;
  refinenet4 : Layer;
  refinenet3 : Layer;
  refinenet2 : Layer;
  refinenet1 : Layer;
  output_conv : list Layer
}.

Record MidasNet := {
  channels_last : PyVal;
  blocks : gmap string PyVal;
  backbone : string;
  monodepth : PyVal;
  num_classes : Z;
  dropout_rate : Q;
  groups : Z;
  expand : bool;
  bn : bool;
  hooks : PyVal;
  use_readout : PyVal;
  scale : PyVal;
  shift : PyVal;
  pretrained : Pretrained;
  scratch : Scratch;
  auxlayer : option (list Layer);
  loaded : option PyVal;
  freeze_bn : bool
}.

Record Args := {
  arg_path : PyVal;
  arg_features : Z;
  arg_backbone : string;
  arg_monodepth : PyVal;
  arg_num_classes : Z;
  arg_non_negative : PyVal;
  arg_exportable : PyVal;
  arg_channels_last : PyVal;
  arg_align_corners : PyVal;
  arg_blocks : gmap string PyVal
}.

(** The defaults of the signature. *)
Definition default_blocks : gmap string PyVal :=
  list_to_map
    [ ("activation", PyStr "relu");
      ("batch_norm", PyFalse);
      ("freeze_bn", PyTrue);
      ("expand", PyFalse);
      ("hooks", PyList [PyInt 0; PyInt 1; PyInt 8; PyInt 11]);
      ("use_readout", PyStr "project");
      ("aux", PyNone);
      ("widehead", PyFalse);
      ("scale", PyFloat 1);
      ("shift", PyFloat 0) ].

Definition default_args : Args := {|
  arg_path := PyNone;
  arg_features := 256;
  arg_backbone := "vitb_rn50_384";
  arg_monodepth := PyTrue;
  arg_num_classes := 150;
  arg_non_negative := PyTrue;
  arg_exportable := PyFalse;
  arg_channels_last := PyFalse;
  arg_align_corners := PyTrue;
  arg_blocks := default_blocks
|}.

Section Program.
Context {L : TorchLib}.

(** ** Effects: what is printed, which collaborator is called, in order *)

Inductive Event :=
  | EvPrint (args : list PyVal)
  | EvMakeEncoder (ea : EncArgs)
  | EvNew (l : Layer)
  | EvLoad (p : PyVal)
  | EvFreezeNorm (p : Pretrained)
  | EvApply (s : Slot) (l : Layer) (args : list tensor)
  | EvForwardVit (p : Pretrained) (x : tensor)
  | EvContiguous (x : tensor)
  | EvMul (x : tensor) (v : PyVal)
  | EvAdd (x : tensor) (v : PyVal)
  | EvInterpolate (x : tensor) (size : list Z) (mode : string) (ac : PyVal)
  | EvSqueeze (x : tensor) (dim : nat).

(** What a collaborator call gives back when it returns. *)
Definition result_type (ev : Event) : Type :=
  match ev with
  | EvPrint _ => unit
  | EvMakeEncoder _ => (Pretrained * (Layer * Layer * Layer * Layer))%type
  | EvNew _ => Layer
  | EvLoad _ => unit
  | EvFreezeNorm _ => Pretrained
  | EvForwardVit _ _ => (tensor * tensor * tensor * tensor)%type
  | _ => tensor
  end.

(** The outcome of a call: a failure message or the result. *)
Definition run_event (ev : Event) : string + result_type ev :=
  match ev with
  | EvPrint _ => inr tt
  | EvMakeEncoder ea => _make_encoder ea
  | EvNew l => match new_module l with Some msg => inl msg | None => inr l end
  | EvLoad p => match load p with Some msg => inl msg | None => inr tt end
  | EvFreezeNorm p => freeze_norm p
  | EvApply s l args => module_call s l args
  | EvForwardVit p x => forward_vit p x
  | EvContiguous x => contiguous x
  | EvMul x v => tensor_mul x v
  | EvAdd x v => tensor_add x v
  | EvInterpolate x size mode ac => interpolate x size mode ac
  | EvSqueeze x dim => squeeze x dim
  end.

(** A run: its events, and an exception or a value. *)
Definition M (A : Type) : Type := (list Event * (PyErr + A))%type.

#[export] Instance M_ret : MRet M := λ A a, ([], inr a).

#[export] Instance M_bind : MBind M := λ A B f m,
  match m with
  | (tr, inl e) => (tr, inl e)
  | (tr, inr a) => let '(tr', r) := f a in (tr ++ tr', r)
  end.

Definition raise {A} (e : PyErr) : M A := ([], inl e).

(** A collaborator call: the event, then its outcome. *)
Definition perform (ev : Event) : M (result_type ev) :=
  ([ev], match run_event ev with inl msg => inl (LibError msg) | inr a => inr a end).

Definition print (args : list PyVal) : M unit := perform (EvPrint args).

Definition new (l : Layer) : M Layer := perform (EvNew l).

Definition apply (s : Slot) (l : Layer) (args : list tensor) : M tensor :=
  perform (EvApply s l args).

(** [d[k]] *)
Definition getitem (d : gmap string PyVal) (k : string) : M PyVal :=
  match d !! k with
  | Some v => mret v
  | None => raise (KeyError k)
  end.

(** [obj.name] for an attribute that may be absent *)
Definition getattr {A} (name : string) (o : option A) : M A :=
  match o with
  | Some v => mret v
  | None => raise (AttributeError name)
  end.

(** [nn.Sequential.forward]: the modules in order, each on the result of
    the one before; [k] is the index of the first module of [ls]. *)
Fixpoint call_seq (slot : nat → Slot) (k : nat) (ls : list Layer) (x : tensor)
  : M tensor :=
  match ls with
  | [] => mret x
  | l :: ls' => y ← apply (slot k) l [x]; call_seq slot (S k) ls' y
  end.

Definition enc_args (a : Args) : EncArgs := {|
  ea_backbone := arg_backbone a;
  ea_features := arg_features a;
  ea_use_pretrained := negb (py_truthy (arg_path a));
  ea_groups := 1;
  ea_expand := false;
  ea_exportable := arg_exportable a;
  ea_hooks := blocks_get (arg_blocks a) "hooks" PyNone;
  ea_use_readout := blocks_get (arg_blocks a) "use_readout" (PyStr "ignore")
|}.

(** ** [MidasNet.__init__] (lines 23-232) *)

Definition __init__ (a : Args) : M MidasNet :=
  let features := arg_features a in
  let align_corners := arg_align_corners a in
  (* line 54 *)
  print [PyStr "Loading weights: "; arg_path a];;
  (* lines 58-88; [use_pretrained] is in [enc_args] *)
  let self_blocks := arg_blocks a in
  let self_dropout_rate := 0%Q in
  let self_groups := 1 in
  let self_expand := false in
  let self_bn := blocks_flag self_blocks "batch_norm" PyTrue in
  let self_hooks := blocks_get self_blocks "hooks" PyNone in
  let self_use_readout := blocks_get self_blocks "use_readout" (PyStr "ignore") in
  let self_scale := blocks_get self_blocks "scale" (PyFloat 1) in
  let self_shift := blocks_get self_blocks "shift" (PyFloat 0) in
  (* lines 90-99 *)
  enc ← perform (EvMakeEncoder (enc_args a));
  let '(self_pretrained, (rn1, rn2, rn3, rn4)) := enc in
  (* lines 101-113; blocks is self.blocks: the assignment of line 102 is
     seen through both names *)
  let self_blocks := set_default_activation self_blocks in
  act ← getitem self_blocks "activation";
  activation ←
    (if py_eq act (PyStr "mish") then raise (NameError "Mish")
     else if py_eq act (PyStr "hard_mish") then raise (NameError "HardMish")
     else if py_eq act (PyStr "leaky") then new (LeakyReLU (1 # 10))
     else if py_eq act (PyStr "relu") then new (ReLU false)
     else new Identity);
  (* lines 115-145; refinenet1 is built without [expand] *)
  rf4 ← new (FeatureFusionBlock_custom features activation false self_bn
               (Some self_expand) align_corners);
  rf3 ← new (FeatureFusionBlock_custom features activation false self_bn
               (Some self_expand) align_corners);
  rf2 ← new (FeatureFusionBlock_custom features activation false self_bn
               (Some self_expand) align_corners);
  rf1 ← new (FeatureFusionBlock_custom features activation false self_bn
               None align_corners);
  (* lines 147-208 *)
  head ←
    (if py_eq (arg_monodepth a) PyTrue then
       c1 ← new (Conv2d features (features `div` 2) 3 1 1 self_groups true);
       up ← new (Interpolate 2 "bilinear" None);
       c2 ← new (Conv2d (features `div` 2) 32 3 1 1 1 true);
       c3 ← new (Conv2d 32 1 1 1 0 1 true);
       nn ← new (if py_truthy (arg_non_negative a) then ReLU true else Identity);
       id ← new Identity;
       mret [c1; up; c2; activation; c3; nn; id]
     else
       wide ← getitem self_blocks "widehead";
       if py_eq wide PyTrue then
         print [PyStr "using a wide head"];;
         c1 ← new (Conv2d features features 3 1 1 1 false);
         b1 ← new (BatchNorm2d features);
         r1 ← new (ReLU true);
         d1 ← new (Dropout (1 # 10) false);
         c2 ← new (Conv2d features (arg_num_classes a) 1 1 0 1 true);
         up ← new (Interpolate 2 "bilinear" (Some align_corners));
         mret [c1; b1; r1; d1; c2; up]
       else
         wide_hr ← getitem self_blocks "widehead_hr";
         if py_eq wide_hr PyTrue then
           print [PyStr "using a wide hr head"];;
           c1 ← new (Conv2d features features 3 1 1 1 true);
           up ← new (Interpolate 2 "bilinear" (Some align_corners));
           d1 ← new (Dropout (1 # 10) false);
           c2 ← new (Conv2d features (arg_num_classes a) 1 1 0 1 true);
           mret [c1; up; d1; c2]
         else
           c1 ← new (Conv2d features (features `div` 2) 3 1 1 1 true);
           up ← new (Interpolate 2 "bilinear" (Some align_corners));
           d1 ← new (Dropout self_dropout_rate false);
           c2 ← new (Conv2d (features `div` 2) (arg_num_classes a) 1 1 0 1 true);
           mret [c1; up; d1; c2]);
  (* lines 210-217: the first argument evaluated is the name features2,
     which no assignment, argument or import of the module binds *)
  aux ←
    (if blocks_flag self_blocks "aux" PyTrue
     then raise (NameError "features2")
     else mret None);
  (* lines 219-220 *)
  ld ←
    (if py_truthy (arg_path a)
     then perform (EvLoad (arg_path a));; mret (Some (arg_path a))
     else mret None);
  (* lines 222-232 *)
  let self_freeze_bn := negb (blocks_flag self_blocks "freeze_bn" PyFalse) in
  pre ←
    (if self_freeze_bn
     then perform (EvFreezeNorm self_pretrained)
     else mret self_pretrained);
  mret {|
    channels_last := arg_channels_last a;
    blocks := self_blocks;
    backbone := arg_backbone a;
    monodepth := arg_monodepth a;
    num_classes := arg_num_classes a;
    dropout_rate := self_dropout_rate;
    groups := self_groups;
    expand := self_expand;
    bn := self_bn;
    hooks := self_hooks;
    use_readout := self_use_readout;
    scale := self_scale;
    shift := self_shift;
    pretrained := pre;
    scratch := {|
      layer1_rn := rn1; layer2_rn := rn2; layer3_rn := rn3; layer4_rn := rn4;
      activation := activation;
      refinenet4 := rf4; refinenet3 := rf3; refinenet2 := rf2; refinenet1 := rf1;
      output_conv := head
    |};
    auxlayer := aux;
    loaded := ld;
    freeze_bn := self_freeze_bn
  |}.

(** ** [MidasNet.forward] (lines 234-283) *)

Inductive Output :=
  | Single (out : tensor)
  | Pair (out auxout : tensor).

Definition forward (self : MidasNet) (x : tensor) : M Output :=
  (* lines 243-245: the converted tensor is not bound to a name *)
  (if py_eq (channels_last self) PyTrue then
     print [PyStr "self.channels_last = "; channels_last self];;
     perform (EvContiguous x);;
     mret tt
   else mret tt);;
  (* lines 247-255: the else branch belongs to the outer test *)
  layers ←
    match model (pretrained self) with
    | Some vit =>
        match patch_size vit with
        | Some _ =>
            r ← perform (EvForwardVit (pretrained self) x);
            mret (Some r)
        | None => mret None
        end
    | None =>
        m1 ← getattr "layer1" (layer1 (pretrained self));
        layer_1 ← apply (pretrained_layer S1) m1 [x];
        m2 ← getattr "layer2" (layer2 (pretrained self));
        layer_2 ← apply (pretrained_layer S2) m2 [layer_1];
        m3 ← getattr "layer3" (layer3 (pretrained self));
        layer_3 ← apply (pretrained_layer S3) m3 [layer_2];
        m4 ← getattr "layer4" (layer4 (pretrained self));
        layer_4 ← apply (pretrained_layer S4) m4 [layer_3];
        mret (Some (layer_1, layer_2, layer_3, layer_4))
    end;
  (* line 257 reads layer_1 *)
  bound ←
    match layers with
    | Some r => mret r
    | None => raise (UnboundLocalError "layer_1")
    end;
  let '(layer_1, layer_2, layer_3, layer_4) := bound in
  layer_1_rn ← apply (scratch_layer_rn S1) (layer1_rn (scratch self)) [layer_1];
  layer_2_rn ← apply (scratch_layer_rn S2) (layer2_rn (scratch self)) [layer_2];
  layer_3_rn ← apply (scratch_layer_rn S3) (layer3_rn (scratch self)) [layer_3];
  layer_4_rn ← apply (scratch_layer_rn S4) (layer4_rn (scratch self)) [layer_4];
  path_4 ← apply (scratch_refinenet S4) (refinenet4 (scratch self)) [layer_4_rn];
  path_3 ← apply (scratch_refinenet S3) (refinenet3 (scratch self)) [path_4; layer_3_rn];
  path_2 ← apply (scratch_refinenet S2) (refinenet2 (scratch self)) [path_3; layer_2_rn];
  path_1 ← apply (scratch_refinenet S1) (refinenet1 (scratch self)) [path_2; layer_1_rn];
  (* lines 269-271 *)
  out ← call_seq scratch_output_conv 0 (output_conv (scratch self)) path_1;
  out ← perform (EvMul out (scale self));
  out ← perform (EvAdd out (shift self));
  (* lines 273-283 *)
  match auxlayer self with
  | Some aux =>
      auxout ← call_seq auxlayer_item 0 aux path_2;
      auxout ← perform (EvInterpolate auxout (drop 2 (shape out)) "bilinear" PyTrue);
      mret (Pair out auxout)
  | None =>
      if py_eq (monodepth self) PyTrue then
        sq ← perform (EvSqueeze out 1);
        mret (Single sq)
      else mret (Single out)
  end.

End Program.

(** ** What the results about shapes assume of the library

    A feature map is an array with axes (batch, channel, height, width).
    Modules take feature maps of one batch to a feature map of that batch,
    a convolution has the channels it was built with, the pointwise
    modules and the scalar operations keep the shape, and squeezing a
    channel axis of length one removes it. *)

Definition feature_map `{TorchLib} (b : Z) (t : tensor) : Prop :=
  ∃ c h w, shape t = [b; c; h; w].

Class TorchLaws (L : TorchLib) : Prop := {
  module_call_batch : ∀ s l args y b,
    module_call s l args = inr y → args ≠ [] →
    Forall (feature_map b) args → feature_map b y;
  conv2d_out_channels : ∀ s cin cout k st p g bias x y b,
    module_call s (Conv2d cin cout k st p g bias) [x] = inr y →
    feature_map b x → ∃ h w, shape y = [b; cout; h; w];
  relu_shape : ∀ s i x y,
    module_call s (ReLU i) [x] = inr y → shape y = shape x;
  identity_shape : ∀ s x y,
    module_call s Identity [x] = inr y → shape y = shape x;
  forward_vit_batch : ∀ p x l1 l2 l3 l4 b,
    forward_vit p x = inr (l1, l2, l3, l4) → feature_map b x →
    feature_map b l1 ∧ feature_map b l2 ∧ feature_map b l3 ∧ feature_map b l4;
  tensor_mul_shape : ∀ x v y, tensor_mul x v = inr y → shape y = shape x;
  tensor_add_shape : ∀ x v y, tensor_add x v = inr y → shape y = shape x;
  squeeze_unit : ∀ x y b h w,
    squeeze x 1 = inr y → shape x = [b; 1; h; w] → shape y = [b; h; w]
}.

(** ** What the results about resizing assume of the library

    The repository's [Interpolate] block resizes the two spatial axes of a
    feature map and keeps its batch and its channels; [F.interpolate] with
    a [size] returns an array whose spatial axes are that size. *)
Class ResizeLaws (L : TorchLib) : Prop := {
  interpolate_module_channels : ∀ s sf mode ac x y b c h w,
    module_call s (Interpolate sf mode ac) [x] = inr y →
    shape x = [b; c; h; w] → ∃ h' w', shape y = [b; c; h'; w'];
  interpolate_size : ∀ x size mode ac y,
    interpolate x size mode ac = inr y → drop 2 (shape y) = size
}.

(** ** A symbolic implementation of the library

    Tensors are a shape and the expression that produced them; every
    operation checks the shapes the way the numerical library documents
    and fails on a mismatch.  It is used to run the model on concrete
    inputs. *)
Module Sym.

Inductive Expr :=
  | XInput (name : string)
  | XConst (v : PyVal)
  | XOp (op : string) (args : list Expr).

Record STensor := { st_shape : list Z; st_expr : Expr }.

Definition stage_name (i : Stage) : string :=
  match i with S1 => "1" | S2 => "2" | S3 => "3" | S4 => "4" end.

Definition slot_name (s : Slot) : string :=
  match s with
  | pretrained_layer i => "pretrained.layer" ++ stage_name i
  | scratch_layer_rn i => "scratch.layer" ++ stage_name i ++ "_rn"
  | scratch_refinenet i => "scratch.refinenet" ++ stage_name i
  | scratch_output_conv _ => "scratch.output_conv"
  | auxlayer_item _ => "auxlayer"
  end%string.

Definition conv_out (n k st p : Z) : option Z :=
  if (0 <? st) && (k <=? n + 2 * p)
  then Some ((n + 2 * p - k) `div` st + 1)
  else None.

(** Channels and size of the result of a module on an argument with [c]
    channels and size [h] x [w]; [rest] are the shapes of the further
    arguments. *)
Definition layer_chw (l : Layer) (n c h w : Z) (rest : list (list Z))
  : option (Z * Z * Z) :=
  match l, rest with
  | Conv2d cin cout k st p g _, [] =>
      if c =? cin then
        ho ← conv_out h k st p;
        wo ← conv_out w k st p;
        Some (cout, ho, wo)
      else None
  | BatchNorm2d f, [] => if c =? f then Some (c, h, w) else None
  | ReLU _, [] | LeakyReLU _, [] | Identity, [] | Dropout _ _, [] => Some (c, h, w)
  | Interpolate sf _ _, [] => Some (c, sf * h, sf * w)
  | FeatureFusionBlock_custom f _ _ _ _ _, [] =>
      if c =? f then Some (c, 2 * h, 2 * w) else None
  | FeatureFusionBlock_custom f _ _ _ _ _, [skip] =>
      if (c =? f) && bool_decide (skip = [n; c; h; w])
      then Some (c, 2 * h, 2 * w) else None
  | Opaque tag, [] =>
      if String.eqb tag "layer1" then
        if c =? 3 then Some (256, h `div` 4, w `div` 4) else None
      else if String.eqb tag "layer2" then Some (2 * c, h `div` 2, w `div` 2)
      else if String.eqb tag "layer3" then Some (2 * c, h `div` 2, w `div` 2)
      else if String.eqb tag "layer4" then Some (2 * c, h `div` 2, w `div` 2)
      else None
  | _, _ => None
  end.

Definition sym_module_call (s : Slot) (l : Layer) (args : list STensor)
  : string + STensor :=
  match args with
  | x :: rest =>
      match st_shape x with
      | [n; c; h; w] =>
          match layer_chw l n c h w (st_shape <$> rest) with
          | Some (c', h', w') =>
              inr {| st_shape := [n; c'; h'; w'];
                     st_expr := XOp (slot_name s) (st_expr <$> args) |}
          | None => inl "shape mismatch"
          end
      | _ => inl "expected a 4D input"
      end
  | [] => inl "missing argument"
  end.

Definition sym_forward_vit (p : Pretrained) (x : STensor)
  : string + (STensor * STensor * STensor * STensor) :=
  match st_shape x with
  | [n; c; h; w] =>
      if c =? 3 then
        let out (i : string) (c k : Z) :=
          {| st_shape := [n; c; h `div` k; w `div` k];
             st_expr := XOp ("forward_vit." ++ i) [st_expr x] |} in
        inr (out "1" 256 4, out "2" 512 8, out "3" 768 16, out "4" 768 32)
      else inl "expected three channels"
  | _ => inl "expected an image batch"
  end.

Definition sym_contiguous (x : STensor) : string + STensor :=
  if (length (st_shape x) =? 4)%nat then inr x
  else inl "required rank 4 tensor to use channels_last format".

Definition sym_scalar_op (op : string) (x : STensor) (v : PyVal) : string + STensor :=
  match py_num v with
  | Some _ => inr {| st_shape := st_shape x;
                     st_expr := XOp op [st_expr x; XConst v] |}
  | None => inl "unsupported operand type"
  end.

Definition sym_interpolate (x : STensor) (size : list Z) (mode : string)
  (ac : PyVal) : string + STensor :=
  match st_shape x, size with
  | [n; c; _; _], [h; w] =>
      inr {| st_shape := [n; c; h; w]; st_expr := XOp "interpolate" [st_expr x] |}
  | _, _ => inl "size does not match the input"
  end.

Definition sym_squeeze (x : STensor) (dim : nat) : string + STensor :=
  match st_shape x !! dim with
  | Some d =>
      inr {| st_shape := if d =? 1 then delete dim (st_shape x) else st_shape x;
             st_expr := XOp "squeeze" [st_expr x] |}
  | None => inl "Dimension out of range"
  end.

Definition sym_make_encoder (ea : EncArgs)
  : string + (Pretrained * (Layer * Layer * Layer * Layer)) :=
  let rn (c : Z) := Conv2d c (ea_features ea) 3 1 1 (ea_groups ea) false in
  if String.eqb (ea_backbone ea) "resnext101_wsl" then
    inr ({| model := None;
            layer1 := Some (Opaque "layer1"); layer2 := Some (Opaque "layer2");
            layer3 := Some (Opaque "layer3"); layer4 := Some (Opaque "layer4");
            norm_frozen := false |},
         (rn 256, rn 512, rn 1024, rn 2048))
  else if String.eqb (ea_backbone ea) "vitb_rn50_384" then
    inr ({| model := Some {| patch_size := Some (PyList [PyInt 16; PyInt 16]) |};
            layer1 := None; layer2 := None; layer3 := None; layer4 := None;
            norm_frozen := false |},
         (rn 256, rn 512, rn 768, rn 768))
  else inl "Backbone not implemented".

Definition sym_new_module (l : Layer) : option string :=
  match l with
  | Conv2d cin cout _ _ _ g _ =>
      if (0 <? cin) && (0 <? cout) && (0 <? g)
         && (cin `mod` g =? 0) && (cout `mod` g =? 0)
      then None else Some "invalid channels"
  | FeatureFusionBlock_custom f _ _ _ _ _ =>
      if 0 <? f then None else Some "invalid channels"
  | _ => None
  end.

Definition sym_load (p : PyVal) : option string :=
  match p with
  | PyStr _ => None
  | _ => Some "not a path"
  end.

Definition sym_freeze_norm (p : Pretrained) : string + Pretrained :=
  inr {| model := model p;
         layer1 := layer1 p; layer2 := layer2 p;
         layer3 := layer3 p; layer4 := layer4 p;
         norm_frozen := true |}.

#[export] Instance lib : TorchLib := {|
  tensor := STensor;
  shape := st_shape;
  module_call := sym_module_call;
  forward_vit := sym_forward_vit;
  contiguous := sym_contiguous;
  tensor_mul := sym_scalar_op "mul";
  tensor_add := sym_scalar_op "add";
  interpolate := sym_interpolate;
  squeeze := sym_squeeze;
  _make_encoder := sym_make_encoder;
  new_module := sym_new_module;
  load := sym_load;
  freeze_norm := sym_freeze_norm
|}.

(** An image batch of the given shape. *)
Definition image (s : list Z) : STensor :=
  {| st_shape := s; st_expr := XInput "x" |}.

End Sym.

(** * What is observed of a run *)

(** ** Variants of the arguments and of the model *)

(** The arguments [a] with the mapping [b]. *)
Definition with_blocks (b : gmap string PyVal) (a : Args) : Args := {|
  arg_path := arg_path a;
  arg_features := arg_features a;
  arg_backbone := arg_backbone a;
  arg_monodepth := arg_monodepth a;
  arg_num_classes := arg_num_classes a;
  arg_non_negative := arg_non_negative a;
  arg_exportable := arg_exportable a;
  arg_channels_last := arg_channels_last a;
  arg_align_corners := arg_align_corners a;
  arg_blocks := b
|}.

(** The arguments [a] with [channels_last=c]. *)
Definition with_arg_channels_last (c : PyVal) (a : Args) : Args := {|
  arg_path := arg_path a;
  arg_features := arg_features a;
  arg_backbone := arg_backbone a;
  arg_monodepth := arg_monodepth a;
  arg_num_classes := arg_num_classes a;
  arg_non_negative := arg_non_negative a;
  arg_exportable := arg_exportable a;
  arg_channels_last := c;
  arg_align_corners := arg_align_corners a;
  arg_blocks := arg_blocks a
|}.

(** The default arguments with another mode and mapping. *)
Definition args_with (mono : PyVal) (b : gmap string PyVal) : Args := {|
  arg_path := PyNone;
  arg_features := 256;
  arg_backbone := "vitb_rn50_384";
  arg_monodepth := mono;
  arg_num_classes := 150;
  arg_non_negative := PyTrue;
  arg_exportable := PyFalse;
  arg_channels_last := PyFalse;
  arg_align_corners := PyTrue;
  arg_blocks := b
|}.

(** The model with [self.channels_last = c]. *)
Definition with_channels_last (c : PyVal) (self : MidasNet) : MidasNet := {|
  channels_last := c;
  blocks := blocks self;
  backbone := backbone self;
  monodepth := monodepth self;
  num_classes := num_classes self;
  dropout_rate := dropout_rate self;
  groups := groups self;
  expand := expand self;
  bn := bn self;
  hooks := hooks self;
  use_readout := use_readout self;
  scale := scale self;
  shift := shift self;
  pretrained := pretrained self;
  scratch := scratch self;
  auxlayer := auxlayer self;
  loaded := loaded self;
  freeze_bn := freeze_bn self
|}.

(** The model with [self.pretrained = p]. *)
Definition with_pretrained (p : Pretrained) (self : MidasNet) : MidasNet := {|
  channels_last := channels_last self;
  blocks := blocks self;
  backbone := backbone self;
  monodepth := monodepth self;
  num_classes := num_classes self;
  dropout_rate := dropout_rate self;
  groups := groups self;
  expand := expand self;
  bn := bn self;
  hooks := hooks self;
  use_readout := use_readout self;
  scale := scale self;
  shift := shift self;
  pretrained := p;
  scratch := scratch self;
  auxlayer := auxlayer self;
  loaded := loaded self;
  freeze_bn := freeze_bn self
|}.

(** The model with the modules [aux] in sequence as [self.auxlayer]. *)
Definition with_auxlayer (aux : list Layer) (self : MidasNet) : MidasNet := {|
  channels_last := channels_last self;
  blocks := blocks self;
  backbone := backbone self;
  monodepth := monodepth self;
  num_classes := num_classes self;
  dropout_rate := dropout_rate self;
  groups := groups self;
  expand := expand self;
  bn := bn self;
  hooks := hooks self;
  use_readout := use_readout self;
  scale := scale self;
  shift := shift self;
  pretrained := pretrained self;
  scratch := scratch self;
  auxlayer := Some aux;
  loaded := loaded self;
  freeze_bn := freeze_bn self
|}.

(** The model without the mapping it keeps in [self.blocks]. *)
Definition forget_blocks (m : MidasNet) : MidasNet := {|
  channels_last := channels_last m;
  blocks := ∅;
  backbone := backbone m;
  monodepth := monodepth m;
  num_classes := num_classes m;
  dropout_rate := dropout_rate m;
  groups := groups m;
  expand := expand m;
  bn := bn m;
  hooks := hooks m;
  use_readout := use_readout m;
  scale := scale m;
  shift := shift m;
  pretrained := pretrained m;
  scratch := scratch m;
  auxlayer := auxlayer m;
  loaded := loaded m;
  freeze_bn := freeze_bn m
|}.

(** ** The reads of the configuration *)

(** The activation the chain of comparisons selects. *)
Definition selected_activation (act : PyVal) : Layer :=
  if py_eq act (PyStr "leaky") then LeakyReLU (1 # 10)
  else if py_eq act (PyStr "relu") then ReLU false
  else Identity.

(** The lookups of the head selection find their keys. *)
Definition head_keys_present (a : Args) : Prop :=
  py_eq (arg_monodepth a) PyTrue = true ∨
  ∃ w, arg_blocks a !! "widehead" = Some w ∧
       (py_eq w PyTrue = true ∨ is_Some (arg_blocks a !! "widehead_hr")).

(** The activation value is none of the two whose class is unbound. *)
Definition activation_bound (a : Args) : Prop :=
  py_eq (blocks_get (arg_blocks a) "activation" PyNone) (PyStr "mish") = false ∧
  py_eq (blocks_get (arg_blocks a) "activation" PyNone) (PyStr "hard_mish") = false.

(** The exceptions [__init__] raises by itself, and when. *)
Inductive init_raises (a : Args) : PyErr → Prop :=
  | raises_Mish :
      py_eq (blocks_get (arg_blocks a) "activation" PyNone) (PyStr "mish") = true →
      init_raises a (NameError "Mish")
  | raises_HardMish :
      py_eq (blocks_get (arg_blocks a) "activation" PyNone) (PyStr "mish") = false →
      py_eq (blocks_get (arg_blocks a) "activation" PyNone) (PyStr "hard_mish") = true →
      init_raises a (NameError "HardMish")
  | raises_widehead :
      activation_bound a →
      py_eq (arg_monodepth a) PyTrue = false →
      arg_blocks a !! "widehead" = None →
      init_raises a (KeyError "widehead")
  | raises_widehead_hr w :
      activation_bound a →
      py_eq (arg_monodepth a) PyTrue = false →
      arg_blocks a !! "widehead" = Some w →
      py_eq w PyTrue = false →
      arg_blocks a !! "widehead_hr" = None →
      init_raises a (KeyError "widehead_hr")
  | raises_features2 :
      activation_bound a →
      head_keys_present a →
      blocks_flag (arg_blocks a) "aux" PyTrue = true →
      init_raises a (NameError "features2").

(** What an absent key behaves as. *)
Definition absent_defaults : gmap string PyVal :=
  list_to_map
    [ ("activation", PyNone);
      ("batch_norm", PyFalse);
      ("freeze_bn", PyTrue);
      ("expand", PyFalse);
      ("hooks", PyNone);
      ("use_readout", PyStr "ignore");
      ("aux", PyNone);
      ("scale", PyFloat 1);
      ("shift", PyFloat 0) ].

(** The keys construction looks up. *)
Definition consulted (a : Args) : list string :=
  ["activation"; "batch_norm"; "freeze_bn"; "hooks"; "use_readout"; "aux";
   "scale"; "shift"] ++
  (if py_eq (arg_monodepth a) PyTrue then []
   else "widehead" ::
        (if blocks_flag (arg_blocks a) "widehead" PyTrue then []
         else ["widehead_hr"])).

(** What construction reads of the mapping. *)
Definition same_reads (a : Args) (b1 b2 : gmap string PyVal) : Prop :=
  blocks_get b1 "activation" PyNone = blocks_get b2 "activation" PyNone ∧
  blocks_flag b1 "batch_norm" PyTrue = blocks_flag b2 "batch_norm" PyTrue ∧
  blocks_flag b1 "freeze_bn" PyFalse = blocks_flag b2 "freeze_bn" PyFalse ∧
  blocks_get b1 "hooks" PyNone = blocks_get b2 "hooks" PyNone ∧
  blocks_get b1 "use_readout" (PyStr "ignore")
    = blocks_get b2 "use_readout" (PyStr "ignore") ∧
  blocks_flag b1 "aux" PyTrue = blocks_flag b2 "aux" PyTrue ∧
  blocks_get b1 "scale" (PyFloat 1) = blocks_get b2 "scale" (PyFloat 1) ∧
  blocks_get b1 "shift" (PyFloat 0) = blocks_get b2 "shift" (PyFloat 0) ∧
  (py_eq (arg_monodepth a) PyTrue = false →
   b1 !! "widehead" = b2 !! "widehead" ∧
   (blocks_flag b1 "widehead" PyTrue = false →
    b1 !! "widehead_hr" = b2 !! "widehead_hr")).

(** ** The encoder object *)

(** [name] is one of the four layer attributes and the object lacks it. *)
Definition missing_layer (p : Pretrained) (name : string) : Prop :=
  (name = "layer1" ∧ layer1 p = None) ∨ (name = "layer2" ∧ layer2 p = None) ∨
  (name = "layer3" ∧ layer3 p = None) ∨ (name = "layer4" ∧ layer4 p = None).

(** The two exceptions [forward] raises by itself: a [model] attribute
    without [patch_size] leaves the four maps unassigned, and without a
    [model] attribute a missing layer attribute cannot be read.  Both are
    decided by the attributes of the encoder object; the input plays no
    part. *)
Definition encoder_unusable (p : Pretrained) (e : PyErr) : Prop :=
  (e = UnboundLocalError "layer_1" ∧
   ∃ vit, model p = Some vit ∧ patch_size vit = None) ∨
  (model p = None ∧ ∃ name, e = AttributeError name ∧ missing_layer p name).

(** The two kinds of encoder object [forward] reads its maps from. *)
Definition encoder_usable (p : Pretrained) : Prop :=
  (∃ vit ps, model p = Some vit ∧ patch_size vit = Some ps) ∨
  (model p = None ∧ is_Some (layer1 p) ∧ is_Some (layer2 p) ∧
   is_Some (layer3 p) ∧ is_Some (layer4 p)).

(** ** Events *)

(** The part of the program an event belongs to. *)
Inductive Phase := Preamble | Backbone | Decoder | Head | Affine | Tail | Construction.

#[export] Instance Phase_eq_dec : EqDecision Phase.
Proof. solve_decision. Defined.

(** A call of a channel projection or of a fusion block. *)
Inductive StageCall := Projection (i : Stage) | Fusion (i : Stage).

Section Observations.
Context {L : TorchLib}.

Definition phase (ev : Event) : Phase :=
  match ev with
  | EvPrint _ | EvContiguous _ => Preamble
  | EvForwardVit _ _ | EvApply (pretrained_layer _) _ _ => Backbone
  | EvApply (scratch_layer_rn _) _ _ | EvApply (scratch_refinenet _) _ _ => Decoder
  | EvApply (scratch_output_conv _) _ _ => Head
  | EvMul _ _ | EvAdd _ _ => Affine
  | EvApply (auxlayer_item _) _ _ | EvInterpolate _ _ _ _ | EvSqueeze _ _ => Tail
  | _ => Construction
  end.

Definition stage_call (ev : Event) : option StageCall :=
  match ev with
  | EvApply (scratch_layer_rn i) _ _ => Some (Projection i)
  | EvApply (scratch_refinenet i) _ _ => Some (Fusion i)
  | _ => None
  end.

(** The projection and fusion calls of a trace, in the order they were made. *)
Definition stage_calls (tr : list Event) : list StageCall := omap stage_call tr.

(** The order of the decoder: the four projections, then the fusion
    blocks from the deepest to the finest. *)
Definition top_down : list StageCall :=
  [Projection S1; Projection S2; Projection S3; Projection S4;
   Fusion S4; Fusion S3; Fusion S2; Fusion S1].

(** A computation none of whose events is a decoder call. *)
Definition quiet {A} (c : M A) : Prop := stage_calls c.1 = [].

(** The multiplications and additions of a trace, in order. *)
Definition affine_calls (tr : list Event) : list Event :=
  filter (λ ev, phase ev = Affine) tr.

(** ** Failures *)

(** The run stopped at its last event: that collaborator call failed, and
    the exception is the collaborator's. *)
Definition lib_failure (tr : list Event) (e : PyErr) : Prop :=
  ∃ pre ev msg, tr = pre ++ [ev] ∧ run_event ev = inl msg ∧ e = LibError msg.

(** Every failure of [c] is a collaborator's, or one of [own]. *)
Definition only_fails {A} (own : PyErr → Prop) (c : M A) : Prop :=
  ∀ tr e, c = (tr, inl e) → own e ∨ lib_failure tr e.

(** No collaborator call of the trace failed. *)
Definition event_ok (ev : Event) : bool :=
  match run_event ev with inl _ => false | inr _ => true end.

Definition calls_succeed (tr : list Event) : Prop := forallb event_ok tr = true.

(** ** Runs compared *)

(** Two runs with the same events that fail alike or return related values. *)
Definition run_rel {A} (P : A → A → Prop) (r1 r2 : M A) : Prop :=
  r1.1 = r2.1 ∧
  match r1.2, r2.2 with
  | inl e1, inl e2 => e1 = e2
  | inr a1, inr a2 => P a1 a2
  | _, _ => False
  end.

(** Two constructions that print and call alike, and fail alike or build
    models that differ at most in the mapping they keep. *)
Definition same_construction (r1 r2 : M MidasNet) : Prop :=
  run_rel (λ m1 m2, forget_blocks m1 = forget_blocks m2) r1 r2.

(** The run [r] with [h] applied to the value it returns. *)
Definition map_run {A B} (h : A → B) (r : M A) : M B :=
  (r.1, match r.2 with inl e => inl e | inr a => inr (h a) end).

(** ** A forward pass that returns *)

(** The four feature maps of [x], by the hook-based extraction or through
    the layer attributes. *)
Inductive backbone_maps (self : MidasNet) (x : tensor)
  : tensor → tensor → tensor → tensor → Prop :=
  | via_hooks vit ps l1 l2 l3 l4 :
      model (pretrained self) = Some vit →
      patch_size vit = Some ps →
      forward_vit (pretrained self) x = inr (l1, l2, l3, l4) →
      backbone_maps self x l1 l2 l3 l4
  | via_attributes m1 m2 m3 m4 l1 l2 l3 l4 :
      model (pretrained self) = None →
      layer1 (pretrained self) = Some m1 →
      module_call (pretrained_layer S1) m1 [x] = inr l1 →
      layer2 (pretrained self) = Some m2 →
      module_call (pretrained_layer S2) m2 [l1] = inr l2 →
      layer3 (pretrained self) = Some m3 →
      module_call (pretrained_layer S3) m3 [l2] = inr l3 →
      layer4 (pretrained self) = Some m4 →
      module_call (pretrained_layer S4) m4 [l3] = inr l4 →
      backbone_maps self x l1 l2 l3 l4.

(** The three ways a pass returns, after scale and shift (lines 273-283). *)
Inductive tail_run (self : MidasNet) (path_2 out : tensor)
  : list Event → Output → Prop :=
  | tail_aux aux trA raw auxout :
      auxlayer self = Some aux →
      call_seq auxlayer_item 0 aux path_2 = (trA, inr raw) →
      interpolate raw (drop 2 (shape out)) "bilinear" PyTrue = inr auxout →
      tail_run self path_2 out
        (trA ++ [EvInterpolate raw (drop 2 (shape out)) "bilinear" PyTrue])
        (Pair out auxout)
  | tail_depth sq :
      auxlayer self = None →
      py_eq (monodepth self) PyTrue = true →
      squeeze out 1 = inr sq →
      tail_run self path_2 out [EvSqueeze out 1] (Single sq)
  | tail_plain :
      auxlayer self = None →
      py_eq (monodepth self) PyTrue = false →
      tail_run self path_2 out [] (Single out).

(** A pass that returns [v] with the events [tr]: every value it computed
    on the way. *)
Inductive forward_run (self : MidasNet) (x : tensor)
  : list Event → Output → Prop :=
  | ForwardRun pre l1 l2 l3 l4 r1 r2 r3 r4 path_4 path_3 path_2 path_1
               trH head_out scaled out trT v :
      Forall (λ ev, phase ev = Preamble ∨ phase ev = Backbone) pre →
      backbone_maps self x l1 l2 l3 l4 →
      module_call (scratch_layer_rn S1) (layer1_rn (scratch self)) [l1] = inr r1 →
      module_call (scratch_layer_rn S2) (layer2_rn (scratch self)) [l2] = inr r2 →
      module_call (scratch_layer_rn S3) (layer3_rn (scratch self)) [l3] = inr r3 →
      module_call (scratch_layer_rn S4) (layer4_rn (scratch self)) [l4] = inr r4 →
      module_call (scratch_refinenet S4) (refinenet4 (scratch self)) [r4] = inr path_4 →
      module_call (scratch_refinenet S3) (refinenet3 (scratch self)) [path_4; r3] = inr path_3 →
      module_call (scratch_refinenet S2) (refinenet2 (scratch self)) [path_3; r2] = inr path_2 →
      module_call (scratch_refinenet S1) (refinenet1 (scratch self)) [path_2; r1] = inr path_1 →
      call_seq scratch_output_conv 0 (output_conv (scratch self)) path_1
        = (trH, inr head_out) →
      tensor_mul head_out (scale self) = inr scaled →
      tensor_add scaled (shift self) = inr out →
      tail_run self path_2 out trT v →
      forward_run self x
        (pre ++
         [EvApply (scratch_layer_rn S1) (layer1_rn (scratch self)) [l1];
          EvApply (scratch_layer_rn S2) (layer2_rn (scratch self)) [l2];
          EvApply (scratch_layer_rn S3) (layer3_rn (scratch self)) [l3];
          EvApply (scratch_layer_rn S4) (layer4_rn (scratch self)) [l4];
          EvApply (scratch_refinenet S4) (refinenet4 (scratch self)) [r4];
          EvApply (scratch_refinenet S3) (refinenet3 (scratch self)) [path_4; r3];
          EvApply (scratch_refinenet S2) (refinenet2 (scratch self)) [path_3; r2];
          EvApply (scratch_refinenet S1) (refinenet1 (scratch self)) [path_2; r1]] ++
         trH ++
         [EvMul head_out (scale self); EvAdd scaled (shift self)] ++
         trT)
        v.

End Observations.

(** ** The head construction selects *)

(** The modules of [scratch.output_conv] (lines 147-208), when the lookups
    of the selection find their keys. *)
Definition selected_head (a : Args) (activation : Layer) : option (list Layer) :=
  let features := arg_features a in
  if py_eq (arg_monodepth a) PyTrue then
    Some [Conv2d features (features `div` 2) 3 1 1 1 true;
          Interpolate 2 "bilinear" None;
          Conv2d (features `div` 2) 32 3 1 1 1 true;
          activation;
          Conv2d 32 1 1 1 0 1 true;
          (if py_truthy (arg_non_negative a) then ReLU true else Identity);
          Identity]
  else
    wide ← arg_blocks a !! "widehead";
    if py_eq wide PyTrue then
      Some [Conv2d features features 3 1 1 1 false;
            BatchNorm2d features;
            ReLU true;
            Dropout (1 # 10) false;
            Conv2d features (arg_num_classes a) 1 1 0 1 true;
            Interpolate 2 "bilinear" (Some (arg_align_corners a))]
    else
      wide_hr ← arg_blocks a !! "widehead_hr";
      if py_eq wide_hr PyTrue then
        Some [Conv2d features features 3 1 1 1 true;
              Interpolate 2 "bilinear" (Some (arg_align_corners a));
              Dropout (1 # 10) false;
              Conv2d features (arg_num_classes a) 1 1 0 1 true]
      else
        Some [Conv2d features (features `div` 2) 3 1 1 1 true;
              Interpolate 2 "bilinear" (Some (arg_align_corners a));
              Dropout 0 false;
              Conv2d (features `div` 2) (arg_num_classes a) 1 1 0 1 true].

(** The decoder and head of the model [__init__] builds from [a], given
    the projections [rn1..rn4] of the encoder factory. *)
Definition built_scratch (a : Args) (rn1 rn2 rn3 rn4 : Layer) (head : list Layer)
  : Scratch :=
  let act := selected_activation (blocks_get (arg_blocks a) "activation" PyNone) in
  let fusion (expand : option bool) :=
    FeatureFusionBlock_custom (arg_features a) act false
      (blocks_flag (arg_blocks a) "batch_norm" PyTrue) expand (arg_align_corners a) in
  {| layer1_rn := rn1; layer2_rn := rn2; layer3_rn := rn3; layer4_rn := rn4;
     activation := act;
     refinenet4 := fusion (Some false);
     refinenet3 := fusion (Some false);
     refinenet2 := fusion (Some false);
     refinenet1 := fusion None;
     output_conv := head |}.

(** ** The phases of a pass

    The order of the phases. *)
Definition phase_rank (p : Phase) : nat :=
  match p with
  | Preamble => 0
  | Backbone => 1
  | Decoder => 2
  | Head => 3
  | Affine => 4
  | Tail => 5
  | Construction => 6
  end.

(** Every number is at most the ones after it. *)
Fixpoint ascending (rs : list nat) : Prop :=
  match rs with
  | [] => True
  | r :: rs' => Forall (λ r', (r ≤ r')%nat) rs' ∧ ascending rs'
  end.

(** ** Further observations of a run *)

Section MoreObservations.
Context {L : TorchLib}.

(** A print or a constructor call. *)
Definition builds (ev : Event) : Prop :=
  match ev with
  | EvPrint _ | EvNew _ => True
  | _ => False
  end.

(** A call of the loop that freezes the normalisation layers. *)
Definition freezes (ev : Event) : Prop :=
  match ev with
  | EvFreezeNorm _ => True
  | _ => False
  end.

(** The place of an event's phase in the order of the phases. *)
Definition rank (ev : Event) : nat := phase_rank (phase ev).

(** No event of the trace belongs to an earlier phase than one before it. *)
Definition phases_in_order (tr : list Event) : Prop := ascending (rank <$> tr).

(** A computation whose events are in order and in the phases [lo..hi]. *)
Definition staged {A} (lo hi : nat) (c : M A) : Prop :=
  phases_in_order c.1 ∧ Forall (λ ev, (lo ≤ rank ev ≤ hi)%nat) c.1.

(** With the flag set, the conversion of the input returns. *)
Definition conversion_ok (self : MidasNet) (x : tensor) : Prop :=
  py_eq (channels_last self) PyTrue = true → ∃ y, contiguous x = inr y.

(** When [c] returns, every collaborator call it made returned. *)
Definition returns_cleanly {A} (c : M A) : Prop :=
  ∀ v, c.2 = inr v → calls_succeed c.1.

End MoreObservations.

(** ** Inputs and runs on the symbolic library *)

(** An encoder object with a [model] attribute that has no [patch_size],
    and with the four layer attributes. *)
Definition layered_encoder_with_model : Pretrained := {|
  model := Some {| patch_size := None |};
  layer1 := Some (Opaque "layer1");
  layer2 := Some (Opaque "layer2");
  layer3 := Some (Opaque "layer3");
  layer4 := Some (Opaque "layer4");
  norm_frozen := true
|}.

(** The auxiliary stack the constructor describes, at the decoder width. *)
Definition aux_stack (features classes : Z) : list Layer :=
  [Conv2d features features 3 1 1 1 false;
   BatchNorm2d features;
   ReLU true;
   Dropout 0 false;
   Conv2d features classes 1 1 0 1 true].

Definition image64 : Sym.STensor := Sym.image [2; 3; 64; 64].

(** A batch that lacks the width axis. *)
Definition short_image : Sym.STensor := Sym.image [2; 3; 64].

(** The model the default arguments build on the symbolic library. *)
Definition vit_depth_model : MidasNet := {|
  channels_last := PyFalse;
  blocks := default_blocks;
  backbone := "vitb_rn50_384";
  monodepth := PyTrue;
  num_classes := 150;
  dropout_rate := 0;
  groups := 1;
  expand := false;
  bn := false;
  hooks := PyList [PyInt 0; PyInt 1; PyInt 8; PyInt 11];
  use_readout := PyStr "project";
  scale := PyFloat 1;
  shift := PyFloat 0;
  pretrained := {|
    model := Some {| patch_size := Some (PyList [PyInt 16; PyInt 16]) |};
    layer1 := None; layer2 := None; layer3 := None; layer4 := None;
    norm_frozen := true
  |};
  scratch := {|
    layer1_rn := Conv2d 256 256 3 1 1 1 false;
    layer2_rn := Conv2d 512 256 3 1 1 1 false;
    layer3_rn := Conv2d 768 256 3 1 1 1 false;
    layer4_rn := Conv2d 768 256 3 1 1 1 false;
    activation := ReLU false;
    refinenet4 :=
      FeatureFusionBlock_custom 256 (ReLU false) false false (Some false) PyTrue;
    refinenet3 :=
      FeatureFusionBlock_custom 256 (ReLU false) false false (Some false) PyTrue;
    refinenet2 :=
      FeatureFusionBlock_custom 256 (ReLU false) false false (Some false) PyTrue;
    refinenet1 :=
      FeatureFusionBlock_custom 256 (ReLU false) false false None PyTrue;
    output_conv :=
      [Conv2d 256 128 3 1 1 1 true;
       Interpolate 2 "bilinear" None;
       Conv2d 128 32 3 1 1 1 true;
       ReLU false;
       Conv2d 32 1 1 1 0 1 true;
       ReLU true;
       Identity]
  |};
  auxlayer := None;
  loaded := None;
  freeze_bn := true
|}.

Definition layered_model : MidasNet :=
  with_pretrained layered_encoder_with_model vit_depth_model.

Definition aux_model : MidasNet := with_auxlayer (aux_stack 256 150) vit_depth_model.

(** Segmentation mode with the mapping of the signature, which has
    "widehead" and no "widehead_hr". *)
Definition seg_args : Args := args_with PyFalse default_blocks.

(** Segmentation mode with both head keys. *)
Definition seg_full_args : Args :=
  args_with PyFalse (<["widehead_hr" := PyFalse]> default_blocks).

(** Segmentation mode with both head keys but "widehead" removed. *)
Definition seg_no_widehead_args : Args :=
  args_with PyFalse (delete "widehead" (<["widehead_hr" := PyFalse]> default_blocks)).

Definition aux_args : Args := args_with PyTrue (<["aux" := PyTrue]> default_blocks).

Definition mish_args : Args :=
  args_with PyTrue (<["activation" := PyStr "mish"]> default_blocks).

Definition hard_mish_args : Args :=
  args_with PyTrue (<["activation" := PyStr "hard_mish"]> default_blocks).

Definition empty_args : Args := args_with PyTrue ∅.

(** An activation value that is present and none of the four names. *)
Definition gelu_args : Args :=
  args_with PyTrue (<["activation" := PyStr "gelu"]> default_blocks).

Definition extra_key_args : Args :=
  args_with PyTrue (<["dilation" := PyInt 2]> default_blocks).

Definition default_init_trace : list (Event (L:=Sym.lib)) :=
  Eval vm_compute in (__init__ (L:=Sym.lib) default_args).1.

Definition depth_pass : M (L:=Sym.lib) Output :=
  Eval vm_compute in forward (L:=Sym.lib) vit_depth_model image64.

Definition short_pass : M (L:=Sym.lib) Output :=
  Eval vm_compute in forward (L:=Sym.lib) vit_depth_model short_image.

Definition channels_last_pass : M (L:=Sym.lib) Output :=
  Eval vm_compute in
    forward (L:=Sym.lib) (with_channels_last PyTrue vit_depth_model) image64.

Definition aux_pass : M (L:=Sym.lib) Output :=
  Eval vm_compute in forward (L:=Sym.lib) aux_model image64.

Definition empty_init : M (L:=Sym.lib) MidasNet :=
  Eval vm_compute in __init__ (L:=Sym.lib) empty_args.

Definition seg_full_init : M (L:=Sym.lib) MidasNet :=
  Eval vm_compute in __init__ (L:=Sym.lib) seg_full_args.

(** ** More inputs and runs on the symbolic library *)

Definition image65 : Sym.STensor := Sym.image [2; 3; 65; 65].

Definition checkpoint_args : Args := {|
  arg_path := PyStr "weights/dpt_hybrid.pt";
  arg_features := 256;
  arg_backbone := "vitb_rn50_384";
  arg_monodepth := PyTrue;
  arg_num_classes := 150;
  arg_non_negative := PyTrue;
  arg_exportable := PyFalse;
  arg_channels_last := PyFalse;
  arg_align_corners := PyTrue;
  arg_blocks := default_blocks
|}.

Definition unfrozen_args : Args :=
  args_with PyTrue (<["freeze_bn" := PyFalse]> default_blocks).

Definition expand_args : Args :=
  args_with PyTrue (<["expand" := PyTrue]> default_blocks).

(** The model [seg_full_args] builds on the symbolic library: the plain
    segmentation head. *)
Definition seg_model : MidasNet := {|
  channels_last := PyFalse;
  blocks := <["widehead_hr" := PyFalse]> default_blocks;
  backbone := "vitb_rn50_384";
  monodepth := PyFalse;
  num_classes := 150;
  dropout_rate := 0;
  groups := 1;
  expand := false;
  bn := false;
  hooks := PyList [PyInt 0; PyInt 1; PyInt 8; PyInt 11];
  use_readout := PyStr "project";
  scale := PyFloat 1;
  shift := PyFloat 0;
  pretrained := pretrained vit_depth_model;
  scratch := {|
    layer1_rn := layer1_rn (scratch vit_depth_model);
    layer2_rn := layer2_rn (scratch vit_depth_model);
    layer3_rn := layer3_rn (scratch vit_depth_model);
    layer4_rn := layer4_rn (scratch vit_depth_model);
    activation := ReLU false;
    refinenet4 := refinenet4 (scratch vit_depth_model);
    refinenet3 := refinenet3 (scratch vit_depth_model);
    refinenet2 := refinenet2 (scratch vit_depth_model);
    refinenet1 := refinenet1 (scratch vit_depth_model);
    output_conv :=
      [Conv2d 256 128 3 1 1 1 true;
       Interpolate 2 "bilinear" (Some PyTrue);
       Dropout 0 false;
       Conv2d 128 150 1 1 0 1 true]
  |};
  auxlayer := None;
  loaded := None;
  freeze_bn := true
|}.

Definition seg_init_trace : list (Event (L:=Sym.lib)) :=
  Eval vm_compute in (__init__ (L:=Sym.lib) seg_full_args).1.

Definition seg_pass : M (L:=Sym.lib) Output :=
  Eval vm_compute in forward (L:=Sym.lib) seg_model image64.

(** What [__init__] gives for [a] on the symbolic library: the events, and
    the model when one is built. *)
Definition sym_trace (a : Args) : list (Event (L:=Sym.lib)) :=
  (__init__ (L:=Sym.lib) a).1.

Definition sym_model (a : Args) : MidasNet :=
  match (__init__ (L:=Sym.lib) a).2 with
  | inr m => m
  | inl _ => vit_depth_model
  end.

Definition checkpoint_trace : list (Event (L:=Sym.lib)) :=
  Eval vm_compute in sym_trace checkpoint_args.

Definition checkpoint_model : MidasNet :=
  Eval vm_compute in sym_model checkpoint_args.

Definition unfrozen_trace : list (Event (L:=Sym.lib)) :=
  Eval vm_compute in sym_trace unfrozen_args.

Definition unfrozen_model : MidasNet :=
  Eval vm_compute in sym_model unfrozen_args.

Definition expand_trace : list (Event (L:=Sym.lib)) :=
  Eval vm_compute in sym_trace expand_args.

Definition expand_model : MidasNet :=
  Eval vm_compute in sym_model expand_args.

Definition empty_trace : list (Event (L:=Sym.lib)) :=
  Eval vm_compute in sym_trace empty_args.

Definition empty_model : MidasNet :=
  Eval vm_compute in sym_model empty_args.

(** * Reading a run *)

Section Runs.
Context {L : TorchLib}.

Lemma bind_inr {A B} (m : M A) (f : A → M B) tr b :
  m ≫= f = (tr, inr b) →
  ∃ tr1 a tr2, m = (tr1, inr a) ∧ f a = (tr2, inr b) ∧ tr = tr1 ++ tr2.
Proof.
  destruct m as [tr1 [e | a]]; cbn; [discriminate |].
  destruct (f a) as [tr2 r] eqn:Hf. intros [= <- ->]. eauto 7.
Qed.

Lemma bind_inl {A B} (m : M A) (f : A → M B) tr e :
  m ≫= f = (tr, inl e) →
  m = (tr, inl e) ∨
  ∃ tr1 a tr2, m = (tr1, inr a) ∧ f a = (tr2, inl e) ∧ tr = tr1 ++ tr2.
Proof.
  destruct m as [tr1 [e' | a]]; cbn.
  - intros [= <- <-]. by left.
  - destruct (f a) as [tr2 r] eqn:Hf. intros [= <- ->]. right. eauto 7.
Qed.

Lemma bind_trace {A B} (m : M A) (f : A → M B) :
  (m ≫= f).1 = m.1 ++ match m.2 with inr a => (f a).1 | inl _ => [] end.
Proof.
  destruct m as [tr1 [e | a]]; cbn.
  - by rewrite app_nil_r.
  - by destruct (f a).
Qed.

Lemma bind_result {A B} (m : M A) (f : A → M B) :
  (m ≫= f).2 = match m.2 with inr a => (f a).2 | inl e => inl e end.
Proof.
  destruct m as [tr1 [e | a]]; cbn; [done |]. by destruct (f a).
Qed.

Lemma ret_bind {A B} (a : A) (f : A → M B) : mret a ≫= f = f a.
Proof. cbn. by destruct (f a). Qed.

Lemma raise_bind {A B} e (f : A → M B) : raise e ≫= f = raise e.
Proof. done. Qed.

Lemma perform_inr ev tr v :
  perform ev = (tr, inr v) → run_event ev = inr v ∧ tr = [ev].
Proof.
  unfold perform. destruct (run_event ev); intros Heq; inversion Heq; by subst.
Qed.

Lemma perform_inl ev tr e :
  perform ev = (tr, inl e) →
  ∃ msg, run_event ev = inl msg ∧ e = LibError msg ∧ tr = [ev].
Proof.
  unfold perform. destruct (run_event ev) as [msg |]; intros Heq; inversion Heq.
  subst. eauto.
Qed.

Lemma apply_inr s l args tr y :
  apply s l args = (tr, inr y) →
  module_call s l args = inr y ∧ tr = [EvApply s l args].
Proof. intros H. by apply (perform_inr (EvApply s l args)) in H. Qed.

Lemma new_inr l tr l' :
  new l = (tr, inr l') → new_module l = None ∧ l' = l ∧ tr = [EvNew l].
Proof.
  intros H. apply (perform_inr (EvNew l)) in H as [H ->]. cbn in H.
  destruct (new_module l); by inversion H.
Qed.

Lemma print_inr args tr u : print args = (tr, inr u) → tr = [EvPrint args].
Proof. intros H. by apply (perform_inr (EvPrint args)) in H as [_ ->]. Qed.

Lemma getitem_inr d k tr v : getitem d k = (tr, inr v) → d !! k = Some v ∧ tr = [].
Proof. unfold getitem. destruct (d !! k); intros Heq; inversion Heq; by subst. Qed.

Lemma getattr_inr {A} name (o : option A) tr v :
  getattr name o = (tr, inr v) → o = Some v ∧ tr = [].
Proof. destruct o; intros Heq; inversion Heq; by subst. Qed.

Lemma ret_inr {A} (a : A) tr v : (mret a : M A) = (tr, inr v) → v = a ∧ tr = [].
Proof. intros Heq; inversion Heq; by subst. Qed.

End Runs.

(** Reads off a collaborator call that returned. *)
Ltac performed H :=
  lazymatch type of H with
  | perform ?ev = (_, inr _) =>
      apply (perform_inr ev) in H as [H ->]; cbn [run_event] in H
  end.

Section ForwardReturns.
Context {L : TorchLib}.

Lemma forward_inr self x tr v :
  forward self x = (tr, inr v) → forward_run self x tr v.
Proof.
  unfold forward. intros H.
  apply bind_inr in H as (trC & [] & ? & HC & H & ->).
  apply bind_inr in H as (trB & layers & ? & HB & H & ->).
  apply bind_inr in H as (? & [[[l1 l2] l3] l4] & ? & Hbound & H & ->).
  destruct layers as [r|]; [|discriminate Hbound].
  apply ret_inr in Hbound as [<- ->].
  do 8 (let Hs := fresh "Hs" in
        apply bind_inr in H as (? & ? & ? & Hs & H & ->);
        apply apply_inr in Hs as [Hs ->]).
  apply bind_inr in H as (trH & head_out & ? & HH & H & ->).
  do 2 (let Hs := fresh "Hs" in
        apply bind_inr in H as (? & ? & ? & Hs & H & ->);
        performed Hs).
  assert (Forall (λ ev, phase ev = Preamble ∨ phase ev = Backbone) trC) as HpC.
  { destruct (py_eq (channels_last self) PyTrue).
    - apply bind_inr in HC as (? & ? & ? & Hp & HC & ->).
      apply print_inr in Hp as ->.
      apply bind_inr in HC as (? & ? & ? & Hp & HC & ->).
      performed Hp. apply ret_inr in HC as [_ ->].
      repeat constructor; by left.
    - apply ret_inr in HC as [_ ->]. constructor. }
  assert (backbone_maps self x l1 l2 l3 l4 ∧
          Forall (λ ev, phase ev = Preamble ∨ phase ev = Backbone) trB)
    as [Hmaps HpB].
  { destruct (model (pretrained self)) as [vit|] eqn:Hmodel.
    - destruct (patch_size vit) as [ps|] eqn:Hps; [|discriminate HB].
      apply bind_inr in HB as (? & r & ? & Hp & HB & ->).
      performed Hp. apply ret_inr in HB as [[= <-] ->].
      split; [by eapply via_hooks | repeat constructor; by right].
    - do 4 (let Ha := fresh "Ha" in let Hm := fresh "Hm" in
            apply bind_inr in HB as (? & ? & ? & Ha & HB & ->);
            apply getattr_inr in Ha as [Ha ->];
            apply bind_inr in HB as (? & ? & ? & Hm & HB & ->);
            apply apply_inr in Hm as [Hm ->]).
      apply ret_inr in HB as [[= <- <- <- <-] ->].
      split; [by eapply via_attributes | repeat constructor; by right]. }
  assert (tail_run self x7 x9 x12 v) as Htail.
  { destruct (auxlayer self) as [aux|] eqn:Haux.
    - apply bind_inr in H as (trA & raw & ? & HA & H & ->).
      apply bind_inr in H as (? & auxout & ? & Hp & H & ->).
      performed Hp. apply ret_inr in H as [-> ->].
      rewrite app_nil_r. by eapply tail_aux.
    - destruct (py_eq (monodepth self) PyTrue) eqn:Hdepth.
      + apply bind_inr in H as (? & sq & ? & Hp & H & ->).
        performed Hp. apply ret_inr in H as [-> ->].
        by eapply tail_depth.
      + apply ret_inr in H as [-> ->]. by eapply tail_plain. }
  rewrite (app_assoc trC trB). cbn [app].
  eapply (ForwardRun self x (trC ++ trB)); eauto.
  by apply Forall_app.
Qed.

End ForwardReturns.

(** * The decoder calls of a run *)

Section Decoder.
Context {L : TorchLib}.

Lemma stage_calls_app tr1 tr2 :
  stage_calls (tr1 ++ tr2) = stage_calls tr1 ++ stage_calls tr2.
Proof. apply omap_app. Qed.

Lemma stage_calls_phase tr :
  Forall (λ ev, phase ev ≠ Decoder) tr → stage_calls tr = [].
Proof.
  induction 1 as [|ev tr Hev _ IH]; [done|].
  cbn. fold (stage_calls tr). rewrite IH.
  destruct ev as [| | | | |[]| | | | | |]; cbn in *; congruence.
Qed.

Lemma quiet_bind {A B} (m : M A) (f : A → M B) :
  quiet m → (∀ a, quiet (f a)) → quiet (m ≫= f).
Proof.
  unfold quiet. intros Hm Hf. rewrite bind_trace, stage_calls_app, Hm.
  destruct m.2; [done | apply Hf].
Qed.

Lemma quiet_perform ev : stage_call ev = None → quiet (perform ev).
Proof. unfold quiet; cbn. by intros ->. Qed.

Lemma quiet_ret {A} (a : A) : quiet (mret a : M A).
Proof. done. Qed.

Lemma quiet_raise {A} e : quiet (raise e : M A).
Proof. done. Qed.

Lemma quiet_getattr {A} name (o : option A) : quiet (getattr name o).
Proof. by destruct o. Qed.

Lemma quiet_call_seq slot k ls x :
  (∀ j, stage_call (EvApply (slot j) Identity []) = None) →
  quiet (call_seq slot k ls x).
Proof.
  intros Hslot. revert k x. induction ls as [|l ls IH]; intros k x; [done|].
  cbn [call_seq]. apply quiet_bind; [|by intros].
  apply quiet_perform. specialize (Hslot k). cbn in *. by destruct (slot k).
Qed.

Lemma stage_calls_bind_quiet {A B} (m : M A) (f : A → M B) :
  quiet m →
  stage_calls (m ≫= f).1 =
  match m.2 with inr a => stage_calls (f a).1 | inl _ => [] end.
Proof.
  unfold quiet. intros Hm. rewrite bind_trace, stage_calls_app, Hm.
  by destruct m.2.
Qed.

Lemma stage_calls_bind_apply {B} s l args (f : tensor → M B) :
  stage_calls (apply s l args ≫= f).1 =
  match stage_call (EvApply s l args) with Some c => [c] | None => [] end ++
  match module_call s l args with
  | inr y => stage_calls (f y).1
  | inl _ => []
  end.
Proof.
  rewrite bind_trace, stage_calls_app. unfold apply, perform. cbn.
  destruct (module_call s l args); by destruct s.
Qed.

Lemma forward_stage_calls self x :
  stage_calls (forward self x).1 `prefix_of` top_down.
Proof.
  unfold forward.
  rewrite stage_calls_bind_quiet.
  2:{ destruct (py_eq _ _); [|done].
      repeat (apply quiet_bind; [|intros]); by try apply quiet_perform. }
  match goal with |- context [match ?r with inl _ => _ | inr _ => _ end] =>
    destruct r as [e | []] end; [by eexists|].
  rewrite stage_calls_bind_quiet.
  2:{ destruct (model _) as [vit|].
      - destruct (patch_size vit); [|done].
        apply quiet_bind; [by apply quiet_perform | done].
      - repeat (apply quiet_bind; [|intros]);
          first [apply quiet_getattr | by apply quiet_perform | done]. }
  match goal with |- context [match ?r with inl _ => _ | inr _ => _ end] =>
    destruct r as [e | layers] end; [by eexists|].
  destruct layers as [[[[l1 l2] l3] l4]|]; [|by eexists].
  rewrite stage_calls_bind_quiet by done. cbn [snd mret M_ret].
  do 8 (rewrite stage_calls_bind_apply;
        match goal with |- context [module_call ?s ?l ?a] =>
          destruct (module_call s l a) end;
        [cbn; by eexists|]).
  match goal with |- context [stage_calls (fst ?c)] =>
    assert (quiet c) as Hq end.
  { apply quiet_bind; [by apply quiet_call_seq|intros].
    do 2 (apply quiet_bind; [by apply quiet_perform|intros]).
    destruct (auxlayer self).
    - apply quiet_bind; [by apply quiet_call_seq|intros].
      apply quiet_bind; [by apply quiet_perform|done].
    - destruct (py_eq _ _); [|done].
      apply quiet_bind; [by apply quiet_perform|done]. }
  rewrite Hq. by exists [].
Qed.

End Decoder.

(** * Where the failures of a run come from *)

Section Failures.
Context {L : TorchLib}.

Lemma lib_failure_calls_succeed tr e : lib_failure tr e → ¬ calls_succeed tr.
Proof.
  intros (pre & ev & msg & -> & Hev & _) Hok. unfold calls_succeed in Hok.
  rewrite forallb_app in Hok. apply andb_prop in Hok as [_ Hok].
  cbn in Hok. unfold event_ok in Hok. by rewrite Hev in Hok.
Qed.

Lemma only_fails_bind {A B} own (m : M A) (f : A → M B) :
  only_fails own m → (∀ a, only_fails own (f a)) → only_fails own (m ≫= f).
Proof.
  intros Hm Hf tr e H. apply bind_inl in H as [H | (tr1 & a & tr2 & _ & H & ->)].
  - by apply Hm.
  - apply Hf in H as [H | (pre & ev & msg & -> & ? & ?)]; [by left|].
    right. exists (tr1 ++ pre), ev, msg. by rewrite app_assoc.
Qed.

Lemma only_fails_bind_inr {A B} own (m : M A) (f : A → M B) :
  only_fails own m → (∀ tr a, m = (tr, inr a) → only_fails own (f a)) →
  only_fails own (m ≫= f).
Proof.
  intros Hm Hf tr e H. apply bind_inl in H as [H | (tr1 & a & tr2 & Ha & H & ->)].
  - by apply Hm.
  - apply (Hf _ _ Ha) in H as [H | (pre & ev & msg & -> & ? & ?)]; [by left|].
    right. exists (tr1 ++ pre), ev, msg. by rewrite app_assoc.
Qed.

Lemma only_fails_perform own ev : only_fails own (perform ev).
Proof.
  intros tr e H. apply perform_inl in H as (msg & ? & -> & ->).
  right. by exists [], ev, msg.
Qed.

Lemma only_fails_apply own s l args : only_fails own (apply s l args).
Proof. exact (only_fails_perform own (EvApply s l args)). Qed.

Lemma only_fails_new own l : only_fails own (new l).
Proof. exact (only_fails_perform own (EvNew l)). Qed.

Lemma only_fails_print own args : only_fails own (print args).
Proof. exact (only_fails_perform own (EvPrint args)). Qed.

Lemma only_fails_ret {A} own (a : A) : only_fails own (mret a : M A).
Proof. intros tr e H. inversion H. Qed.

Lemma only_fails_raise {A} (own : PyErr → Prop) e :
  own e → only_fails own (raise e : M A).
Proof. intros He tr e' H. inversion H; subst. by left. Qed.

Lemma only_fails_getattr {A} (own : PyErr → Prop) name (o : option A) :
  (o = None → own (AttributeError name)) → only_fails own (getattr name o).
Proof.
  destruct o; intros Ho tr e H; inversion H; subst. left. by apply Ho.
Qed.

Lemma only_fails_getitem (own : PyErr → Prop) d k :
  (d !! k = None → own (KeyError k)) → only_fails own (getitem d k).
Proof.
  unfold getitem. destruct (d !! k); intros Ho tr e H; inversion H; subst.
  left. by apply Ho.
Qed.

Lemma only_fails_call_seq own slot k ls x : only_fails own (call_seq slot k ls x).
Proof.
  revert k x. induction ls as [|l ls IH]; intros k x; cbn [call_seq].
  - apply only_fails_ret.
  - apply only_fails_bind; [apply only_fails_apply | by intros].
Qed.

End Failures.

(** Closes the goals about steps that raise nothing of their own. *)
Ltac fails_in_lib :=
  repeat first
    [ apply only_fails_apply | apply only_fails_print | apply only_fails_new
    | apply only_fails_ret | apply only_fails_call_seq
    | match goal with
      | |- only_fails ?own (perform ?ev) => exact (only_fails_perform own ev)
      | |- only_fails _ (if ?b then _ else _) => destruct b
      | |- only_fails _ (let '(_, _) := ?p in _) => destruct p
      end
    | apply only_fails_bind; [|intros] ].

Section ForwardFailures.
Context {L : TorchLib}.

Lemma forward_only_fails self x :
  only_fails (encoder_unusable (pretrained self)) (forward self x).
Proof.
  unfold forward.
  apply only_fails_bind; [fails_in_lib | intros _].
  apply only_fails_bind_inr.
  - destruct (model (pretrained self)) as [vit|] eqn:Hmodel.
    + destruct (patch_size vit); fails_in_lib.
    + repeat (apply only_fails_bind; [|intros]);
        try apply only_fails_getattr; fails_in_lib.
      all: intros Hnone; right; split; [done|]; eexists; split; [done|];
        unfold missing_layer; tauto.
  - intros trB layers HB.
    apply only_fails_bind.
    + destruct layers; [fails_in_lib|].
      apply only_fails_raise. left. split; [done|].
      destruct (model (pretrained self)) as [vit|].
      * destruct (patch_size vit) eqn:Hps; [|by eauto].
        apply bind_inr in HB as (? & ? & ? & _ & HB & _). inversion HB.
      * do 4 (apply bind_inr in HB as (? & ? & ? & _ & HB & _);
              apply bind_inr in HB as (? & ? & ? & _ & HB & _)).
        inversion HB.
    + intros bound. fails_in_lib. destruct (auxlayer self); fails_in_lib.
Qed.

Lemma encoder_usable_not_unusable p e :
  encoder_usable p → ¬ encoder_unusable p e.
Proof.
  intros [(vit & ps & Hm & Hps) | (Hm & H1 & H2 & H3 & H4)]
         [(_ & vit' & Hm' & Hps') | (Hm' & name & _ & Hmiss)];
    try congruence.
  destruct Hmiss as [[_ Hn] | [[_ Hn] | [[_ Hn] | [_ Hn]]]];
    rewrite Hn in *; by eapply is_Some_None.
Qed.

(** A pass on a usable encoder in which no collaborator call fails returns. *)
Lemma forward_returns self x :
  encoder_usable (pretrained self) →
  calls_succeed (forward self x).1 →
  ∃ v, (forward self x).2 = inr v.
Proof.
  intros Husable Hok.
  destruct (forward self x) as [tr [e|v]] eqn:Hrun; [|by exists v].
  destruct (forward_only_fails self x tr e Hrun) as [Hown | Hlib].
  - by destruct (encoder_usable_not_unusable _ e Husable).
  - by destruct (lib_failure_calls_succeed tr e).
Qed.

End ForwardFailures.

(** * The scale and shift calls of a run *)

Section AffineCalls.
Context {L : TorchLib}.

Lemma affine_calls_app tr1 tr2 :
  affine_calls (tr1 ++ tr2) = affine_calls tr1 ++ affine_calls tr2.
Proof. apply filter_app. Qed.

Lemma affine_calls_phase tr :
  Forall (λ ev, phase ev ≠ Affine) tr → affine_calls tr = [].
Proof.
  induction 1 as [|ev tr Hev _ IH]; [done|].
  unfold affine_calls in *. rewrite filter_cons. by case_decide.
Qed.

Lemma call_seq_phase slot ph k ls x :
  (∀ j l a, phase (EvApply (slot j) l a) = ph) →
  Forall (λ ev, phase ev = ph) (call_seq slot k ls x).1.
Proof.
  intros Hslot. revert k x. induction ls as [|l ls IH]; intros k x; [constructor|].
  cbn [call_seq]. rewrite bind_trace. apply Forall_app. split.
  - repeat constructor. apply Hslot.
  - destruct (apply _ _ _).2; [constructor | apply IH].
Qed.

Lemma tail_run_phase self path_2 out tr v :
  tail_run self path_2 out tr v → Forall (λ ev, phase ev = Tail) tr.
Proof.
  destruct 1 as [aux trA raw auxout _ HA _ | |]; repeat constructor.
  apply Forall_app. split; [|by repeat constructor].
  pose proof (call_seq_phase auxlayer_item Tail 0 aux path_2) as H.
  rewrite HA in H. by apply H.
Qed.

End AffineCalls.

(** * Construction *)

(** The batch axis through one module call. *)
Ltac propagate_batch :=
  eapply module_call_batch;
    [eassumption | discriminate
    | repeat (apply Forall_cons_2; [assumption|]); apply Forall_nil_2].

Section Construction.
Context {L : TorchLib}.

Lemma lookup_set_default_activation (d : gmap string PyVal) :
  set_default_activation d !! "activation"
  = Some (blocks_get d "activation" PyNone).
Proof.
  unfold set_default_activation, blocks_get.
  destruct (d !! "activation") eqn:Hd; [done|]. by rewrite lookup_insert_eq.
Qed.

Lemma lookup_set_default_activation_ne (d : gmap string PyVal) k :
  k ≠ "activation" → set_default_activation d !! k = d !! k.
Proof.
  intros Hk. unfold set_default_activation.
  destruct (d !! "activation"); [done|]. by rewrite lookup_insert_ne.
Qed.

Lemma blocks_flag_set_default_activation d k v :
  k ≠ "activation" →
  blocks_flag (set_default_activation d) k v = blocks_flag d k v.
Proof.
  intros Hk. unfold blocks_flag. by rewrite lookup_set_default_activation_ne.
Qed.

Lemma getitem_set_default_activation d :
  getitem (set_default_activation d) "activation"
  = mret (blocks_get d "activation" PyNone).
Proof. unfold getitem. by rewrite lookup_set_default_activation. Qed.

Lemma getitem_set_default_activation_ne d k :
  k ≠ "activation" → getitem (set_default_activation d) k = getitem d k.
Proof.
  intros Hk. unfold getitem. by rewrite lookup_set_default_activation_ne.
Qed.

Lemma init_inr a tr m :
  __init__ a = (tr, inr m) →
  let act := blocks_get (arg_blocks a) "activation" PyNone in
  py_eq act (PyStr "mish") = false ∧
  py_eq act (PyStr "hard_mish") = false ∧
  activation (scratch m) = selected_activation act ∧
  blocks_flag (arg_blocks a) "aux" PyTrue = false ∧
  auxlayer m = None ∧
  monodepth m = arg_monodepth a ∧
  channels_last m = arg_channels_last a ∧
  scale m = blocks_get (arg_blocks a) "scale" (PyFloat 1) ∧
  shift m = blocks_get (arg_blocks a) "shift" (PyFloat 0) ∧
  blocks m = set_default_activation (arg_blocks a) ∧
  head_keys_present a ∧
  (py_eq (arg_monodepth a) PyTrue = true →
   output_conv (scratch m) =
     [Conv2d (arg_features a) (arg_features a `div` 2) 3 1 1 1 true;
      Interpolate 2 "bilinear" None;
      Conv2d (arg_features a `div` 2) 32 3 1 1 1 true;
      selected_activation act;
      Conv2d 32 1 1 1 0 1 true;
      (if py_truthy (arg_non_negative a) then ReLU true else Identity);
      Identity]).
Proof.
  unfold __init__. cbv zeta. intros H.
  apply bind_inr in H as (? & ? & ? & _ & H & ->).
  apply bind_inr in H as (? & [p [[[rn1 rn2] rn3] rn4]] & ? & _ & H & ->).
  rewrite getitem_set_default_activation in H.
  apply bind_inr in H as (? & act & ? & Hact & H & ->).
  apply ret_inr in Hact as [-> _].
  apply bind_inr in H as (? & activation & ? & Hsel & H & ->).
  set (act := blocks_get (arg_blocks a) "activation" PyNone) in *.
  assert (py_eq act (PyStr "mish") = false ∧
          py_eq act (PyStr "hard_mish") = false ∧
          activation = selected_activation act) as (Hmish & Hhard & ->).
  { unfold selected_activation.
    destruct (py_eq act (PyStr "mish")); [discriminate Hsel|].
    destruct (py_eq act (PyStr "hard_mish")); [discriminate Hsel|].
    destruct (py_eq act (PyStr "leaky")); [|destruct (py_eq act (PyStr "relu"))];
      by apply new_inr in Hsel as (_ & -> & _). }
  do 4 (let Hs := fresh "Hs" in
        apply bind_inr in H as (? & ? & ? & Hs & H & ->);
        apply new_inr in Hs as (_ & -> & _)).
  apply bind_inr in H as (? & head & ? & Hhead & H & ->).
  apply bind_inr in H as (? & aux & ? & Haux & H & ->).
  rewrite blocks_flag_set_default_activation in Haux by done.
  destruct (blocks_flag (arg_blocks a) "aux" PyTrue); [discriminate Haux|].
  apply ret_inr in Haux as [-> _].
  apply bind_inr in H as (? & ld & ? & _ & H & ->).
  apply bind_inr in H as (? & pre & ? & _ & H & ->).
  apply ret_inr in H as [-> _]. cbn.
  repeat split; try done.
  { unfold head_keys_present.
    destruct (py_eq (arg_monodepth a) PyTrue); [by left | right].
    apply bind_inr in Hhead as (? & w & ? & Hw & Hhead & ->).
    rewrite getitem_set_default_activation_ne in Hw by done.
    apply getitem_inr in Hw as [Hw _]. exists w. split; [done|].
    destruct (py_eq w PyTrue); [by left | right].
    apply bind_inr in Hhead as (? & whr & ? & Hwhr & _).
    rewrite getitem_set_default_activation_ne in Hwhr by done.
    apply getitem_inr in Hwhr as [Hwhr _]. by exists whr. }
  intros Hdepth. rewrite Hdepth in Hhead.
  do 6 (let Hs := fresh "Hs" in
        apply bind_inr in Hhead as (? & ? & ? & Hs & Hhead & ->);
        apply new_inr in Hs as (_ & -> & _)).
  by apply ret_inr in Hhead as [-> _].
Qed.

Lemma init_only_fails a : only_fails (init_raises a) (__init__ a).
Proof.
  unfold __init__. cbv zeta.
  apply only_fails_bind; [fails_in_lib | intros _].
  apply only_fails_bind; [fails_in_lib | intros [p [[[rn1 rn2] rn3] rn4]]].
  rewrite getitem_set_default_activation, ret_bind.
  set (act := blocks_get (arg_blocks a) "activation" PyNone).
  destruct (py_eq act (PyStr "mish")) eqn:Hmish.
  { rewrite raise_bind. apply only_fails_raise. by apply raises_Mish. }
  destruct (py_eq act (PyStr "hard_mish")) eqn:Hhard.
  { rewrite raise_bind. apply only_fails_raise. by apply raises_HardMish. }
  apply only_fails_bind; [fails_in_lib | intros activation].
  do 4 (apply only_fails_bind; [fails_in_lib | intros ?]).
  apply only_fails_bind_inr.
  { destruct (py_eq (arg_monodepth a) PyTrue) eqn:Hdepth; [fails_in_lib|].
    rewrite (getitem_set_default_activation_ne _ "widehead") by done.
    apply only_fails_bind_inr.
    { apply only_fails_getitem. intros Hw. by apply raises_widehead. }
    intros ? w Hw. apply getitem_inr in Hw as [Hw _].
    destruct (py_eq w PyTrue) eqn:Hwide; [fails_in_lib|].
    rewrite (getitem_set_default_activation_ne _ "widehead_hr") by done.
    apply only_fails_bind.
    { apply only_fails_getitem. intros Hwhr. by eapply raises_widehead_hr. }
    intros whr. fails_in_lib. }
  intros trh head Hhead.
  assert (head_keys_present a) as Hkeys.
  { unfold head_keys_present.
    destruct (py_eq (arg_monodepth a) PyTrue); [by left | right].
    apply bind_inr in Hhead as (? & w & ? & Hw & Hhead & ->).
    rewrite getitem_set_default_activation_ne in Hw by done.
    apply getitem_inr in Hw as [Hw _]. exists w. split; [done|].
    destruct (py_eq w PyTrue); [by left | right].
    apply bind_inr in Hhead as (? & whr & ? & Hwhr & _).
    rewrite getitem_set_default_activation_ne in Hwhr by done.
    apply getitem_inr in Hwhr as [Hwhr _]. by exists whr. }
  rewrite (blocks_flag_set_default_activation _ "aux") by done.
  apply only_fails_bind.
  { destruct (blocks_flag (arg_blocks a) "aux" PyTrue) eqn:Haux; [|fails_in_lib].
    apply only_fails_raise. by apply raises_features2. }
  intros aux. fails_in_lib.
Qed.

Lemma backbone_maps_batch `{!TorchLaws L} self x b l1 l2 l3 l4 :
  backbone_maps self x l1 l2 l3 l4 → feature_map b x →
  feature_map b l1 ∧ feature_map b l2 ∧ feature_map b l3 ∧ feature_map b l4.
Proof.
  intros Hmaps Hx.
  destruct Hmaps as [vit ps y1 y2 y3 y4 _ _ Hvit
                    | m1 m2 m3 m4 y1 y2 y3 y4 _ _ H1 _ H2 _ H3 _ H4].
  - by eapply forward_vit_batch.
  - assert (feature_map b y1) by propagate_batch.
    assert (feature_map b y2) by propagate_batch.
    assert (feature_map b y3) by propagate_batch.
    assert (feature_map b y4) by propagate_batch.
    done.
Qed.

Lemma py_eq_str v s : py_eq v (PyStr s) = true ↔ v = PyStr s.
Proof.
  destruct v as [| | | |t|]; cbn; try (split; [discriminate | done]).
  rewrite String.eqb_eq. split; congruence.
Qed.

Lemma blocks_get_activation_ne (d : gmap string PyVal) s :
  d !! "activation" ≠ Some (PyStr s) →
  py_eq (blocks_get d "activation" PyNone) (PyStr s) = false.
Proof.
  intros Hne. unfold blocks_get.
  destruct (d !! "activation") as [v|]; [|done].
  destruct (py_eq v (PyStr s)) eqn:E; [|done].
  apply py_eq_str in E. congruence.
Qed.

Lemma blocks_get_Some (d : gmap string PyVal) k dflt v :
  d !! k = Some v → blocks_get d k dflt = v.
Proof. unfold blocks_get. by intros ->. Qed.

(** ** Which keys construction depends on *)

Lemma run_rel_bind {A B} (P : B → B → Prop) (m : M A) (f g : A → M B) :
  (∀ x, run_rel P (f x) (g x)) → run_rel P (m ≫= f) (m ≫= g).
Proof.
  intros Hfg. unfold run_rel. rewrite !bind_trace, !bind_result.
  destruct m as [tr [e|x]]; cbn; [done|].
  destruct (Hfg x) as [-> Hres]. done.
Qed.

Lemma run_rel_ret {A} (P : A → A → Prop) (x y : A) :
  P x y → run_rel P (mret x : M A) (mret y).
Proof. by split. Qed.

Lemma init_ext a b1 b2 :
  same_reads a b1 b2 →
  same_construction (__init__ (with_blocks b1 a)) (__init__ (with_blocks b2 a)).
Proof.
  intros (Hact & Hbn & Hfreeze & Hhooks & Hreadout & Haux & Hscale & Hshift & Hhead).
  unfold same_construction, __init__, enc_args. cbv zeta.
  cbn [with_blocks arg_path arg_features arg_backbone arg_monodepth
       arg_num_classes arg_non_negative arg_exportable arg_channels_last
       arg_align_corners arg_blocks].
  rewrite !getitem_set_default_activation.
  rewrite !(blocks_flag_set_default_activation _ "aux") by done.
  rewrite !(blocks_flag_set_default_activation _ "freeze_bn") by done.
  rewrite Hact, Hbn, Hfreeze, Hhooks, Hreadout, Haux, Hscale, Hshift.
  apply run_rel_bind; intros _.
  apply run_rel_bind; intros [p [[[rn1 rn2] rn3] rn4]].
  rewrite !ret_bind.
  do 5 (apply run_rel_bind; intros ?).
  match goal with |- run_rel _ (?h1 ≫= _) (?h2 ≫= _) =>
    assert (h1 = h2) as -> end.
  { destruct (py_eq (arg_monodepth a) PyTrue); [done|].
    destruct (Hhead eq_refl) as [Hw Hwhr].
    rewrite !(getitem_set_default_activation_ne _ "widehead") by done.
    assert (getitem b1 "widehead" = getitem b2 "widehead") as ->
      by (unfold getitem; by rewrite Hw).
    unfold blocks_flag in Hwhr. rewrite Hw in Hwhr.
    destruct (b2 !! "widehead") as [w|] eqn:E.
    - replace (getitem b2 "widehead") with (mret w : M PyVal)
        by (unfold getitem; by rewrite E).
      rewrite !ret_bind. destruct (py_eq w PyTrue); [done|].
      rewrite !(getitem_set_default_activation_ne _ "widehead_hr") by done.
      unfold getitem. by rewrite Hwhr.
    - replace (getitem b2 "widehead") with (raise (KeyError "widehead") : M PyVal)
        by (unfold getitem; by rewrite E).
      done. }
  do 4 (apply run_rel_bind; intros ?).
  by apply run_rel_ret.
Qed.

Lemma lookup_union_defaults (b D : gmap string PyVal) k :
  D ⊆ absent_defaults →
  (b ∪ D) !! k = b !! k ∨
  (b !! k = None ∧ (b ∪ D) !! k = absent_defaults !! k ∧ is_Some (D !! k)).
Proof.
  intros HD. destruct (b !! k) as [v|] eqn:Hb.
  - left. by apply lookup_union_Some_l.
  - rewrite lookup_union_r by done.
    destruct (D !! k) as [d|] eqn:Hd; [right | by left].
    by rewrite (lookup_weaken _ _ _ _ Hd HD).
Qed.

Lemma blocks_get_union b D k d :
  D ⊆ absent_defaults → absent_defaults !! k = Some d →
  blocks_get (b ∪ D) k d = blocks_get b k d.
Proof.
  intros HD Hk. unfold blocks_get.
  destruct (lookup_union_defaults b D k HD) as [-> | (-> & -> & _)]; [done|].
  by rewrite Hk.
Qed.

Lemma blocks_flag_union b D k d v :
  D ⊆ absent_defaults → absent_defaults !! k = Some d → py_eq d v = false →
  blocks_flag (b ∪ D) k v = blocks_flag b k v.
Proof.
  intros HD Hk Hne. unfold blocks_flag.
  destruct (lookup_union_defaults b D k HD) as [-> | (-> & -> & _)]; [done|].
  by rewrite Hk.
Qed.

Lemma lookup_union_no_default (b D : gmap string PyVal) k :
  D ⊆ absent_defaults → absent_defaults !! k = None →
  (b ∪ D) !! k = b !! k.
Proof.
  intros HD Hk.
  destruct (lookup_union_defaults b D k HD) as [-> | (_ & _ & [d Hd])]; [done|].
  rewrite (lookup_weaken _ _ _ _ Hd HD) in Hk. discriminate.
Qed.

Lemma same_reads_defaults a b D :
  D ⊆ absent_defaults → same_reads a b (b ∪ D).
Proof.
  intros HD. unfold same_reads.
  rewrite !(blocks_get_union b D _ _ HD) by reflexivity.
  rewrite !(blocks_flag_union b D _ _ _ HD) by reflexivity.
  rewrite !(lookup_union_no_default b D _ HD) by reflexivity.
  repeat split; done.
Qed.

Lemma same_reads_consulted a b' :
  (∀ k, k ∈ consulted a → b' !! k = arg_blocks a !! k) →
  same_reads a (arg_blocks a) b'.
Proof.
  intros Hk. unfold same_reads, blocks_get, blocks_flag.
  rewrite !Hk by (unfold consulted; set_solver).
  repeat split; try done.
  - symmetry. apply Hk. unfold consulted. rewrite H. set_solver.
  - intros Hw. symmetry. apply Hk. unfold consulted, blocks_flag.
    rewrite H, Hw. set_solver.
Qed.

Lemma with_blocks_id a : with_blocks (arg_blocks a) a = a.
Proof. by destruct a. Qed.

Lemma map_run_bind {A B C} (h : B → C) (m : M A) (f : A → M B) (g : A → M C) :
  (∀ x, g x = map_run h (f x)) → m ≫= g = map_run h (m ≫= f).
Proof.
  intros Hfg. destruct m as [tr [e|x]]; cbn; [done|].
  rewrite Hfg. by destruct (f x) as [tr' [e|y]].
Qed.

Lemma init_channels_last a c :
  __init__ (with_arg_channels_last c a) = map_run (with_channels_last c) (__init__ a).
Proof.
  unfold __init__, enc_args. cbv zeta.
  cbn [with_arg_channels_last arg_path arg_features arg_backbone arg_monodepth
       arg_num_classes arg_non_negative arg_exportable arg_channels_last
       arg_align_corners arg_blocks].
  apply map_run_bind; intros _.
  apply map_run_bind; intros [p [[[rn1 rn2] rn3] rn4]].
  do 10 (apply map_run_bind; intros ?).
  reflexivity.
Qed.

End Construction.

(** * Further facts about runs *)

Section MoreRuns.
Context {L : TorchLib}.

Lemma bind_assoc {A B C} (m : M A) (f : A → M B) (g : B → M C) :
  (m ≫= f) ≫= g = m ≫= (λ a, f a ≫= g).
Proof.
  destruct m as [tr [e|a]]; cbn; [done|].
  destruct (f a) as [tr' [e|b]]; cbn; [done|].
  destruct (g b) as [tr'' r]. by rewrite app_assoc.
Qed.

Lemma bind_ext {A B} (m : M A) (f g : A → M B) :
  (∀ a, f a = g a) → m ≫= f = m ≫= g.
Proof. intros Hfg. destruct m as [tr [e|a]]; cbn; [done|]. by rewrite Hfg. Qed.

Lemma call_seq_app slot k ls1 ls2 x :
  call_seq slot k (ls1 ++ ls2) x =
  call_seq slot k ls1 x ≫= call_seq slot (k + length ls1) ls2.
Proof.
  revert k x. induction ls1 as [|l ls1 IH]; intros k x; cbn [app call_seq length].
  - rewrite ret_bind. by rewrite Nat.add_0_r.
  - rewrite bind_assoc. apply bind_ext. intros y.
    rewrite IH. by rewrite Nat.add_succ_comm.
Qed.

(** The last module of a stack that returned. *)
Lemma call_seq_snoc slot ls l x tr y :
  call_seq slot 0 (ls ++ [l]) x = (tr, inr y) →
  ∃ tr' z, call_seq slot 0 ls x = (tr', inr z) ∧
           module_call (slot (length ls)) l [z] = inr y.
Proof.
  rewrite call_seq_app. intros H.
  apply bind_inr in H as (tr' & z & ? & Hz & H & ->).
  exists tr', z. split; [done|]. cbn [call_seq] in H.
  apply bind_inr in H as (? & ? & ? & Hl & H & ->).
  apply apply_inr in Hl as [Hl _]. by apply ret_inr in H as [-> _].
Qed.

Lemma call_seq_batch `{!TorchLaws L} slot k ls x tr y b :
  call_seq slot k ls x = (tr, inr y) → feature_map b x → feature_map b y.
Proof.
  revert k x tr. induction ls as [|l ls IH]; intros k x tr; cbn [call_seq].
  - intros H Hx. by apply ret_inr in H as [-> _].
  - intros H Hx. apply bind_inr in H as (? & z & ? & Hz & H & ->).
    apply apply_inr in Hz as [Hz _]. eapply IH; [exact H|]. propagate_batch.
Qed.

End MoreRuns.

(** Closes a goal whose hypotheses about the configuration contradict. *)
Ltac contradict_config :=
  unfold activation_bound, head_keys_present in *;
  repeat match goal with
         | H : _ ∧ _ |- _ => destruct H
         | H : _ ∨ _ |- _ => destruct H
         | H : ∃ _, _ |- _ => destruct H
         | H : is_Some _ |- _ => destruct H
         end;
  congruence.

Section MoreConstruction.
Context {L : TorchLib}.

Lemma model_eq (m1 m2 : MidasNet) :
  forget_blocks m1 = forget_blocks m2 → blocks m1 = blocks m2 → m1 = m2.
Proof.
  destruct m1, m2. unfold forget_blocks. cbn. intros Heq ->.
  inversion Heq; by subst.
Qed.

Lemma set_default_activation_idemp d :
  set_default_activation (set_default_activation d) = set_default_activation d.
Proof.
  unfold set_default_activation at 1.
  by rewrite lookup_set_default_activation.
Qed.

Lemma same_reads_set_default_activation a b :
  same_reads a b (set_default_activation b).
Proof.
  unfold same_reads, blocks_get, blocks_flag.
  rewrite lookup_set_default_activation.
  rewrite !lookup_set_default_activation_ne by done.
  repeat split; done.
Qed.

Lemma init_raises_det a e1 e2 : init_raises a e1 → init_raises a e2 → e1 = e2.
Proof.
  intros H1 H2. destruct H1, H2; try reflexivity; exfalso; contradict_config.
Qed.

Lemma init_raises_not_inr a e tr m : init_raises a e → __init__ a ≠ (tr, inr m).
Proof.
  intros He H. apply init_inr in H as (Hm & Hh & _ & Haux & _ & _ & _ & _ & _ & _ & Hkeys & _).
  destruct He; contradict_config.
Qed.

Lemma init_built a tr m :
  __init__ a = (tr, inr m) →
  ∃ p0 rn1 rn2 rn3 rn4 news head pre,
    _make_encoder (enc_args a) = inr (p0, (rn1, rn2, rn3, rn4)) ∧
    selected_head a
      (selected_activation (blocks_get (arg_blocks a) "activation" PyNone))
      = Some head ∧
    Forall builds news ∧
    tr = EvPrint [PyStr "Loading weights: "; arg_path a]
         :: EvMakeEncoder (enc_args a)
         :: news
         ++ (if py_truthy (arg_path a) then [EvLoad (arg_path a)] else [])
         ++ (if blocks_flag (arg_blocks a) "freeze_bn" PyFalse
             then [] else [EvFreezeNorm p0]) ∧
    (py_truthy (arg_path a) = true → load (arg_path a) = None) ∧
    (if blocks_flag (arg_blocks a) "freeze_bn" PyFalse
     then pre = p0 else freeze_norm p0 = inr pre) ∧
    m = {|
      channels_last := arg_channels_last a;
      blocks := set_default_activation (arg_blocks a);
      backbone := arg_backbone a;
      monodepth := arg_monodepth a;
      num_classes := arg_num_classes a;
      dropout_rate := 0;
      groups := 1;
      expand := false;
      bn := blocks_flag (arg_blocks a) "batch_norm" PyTrue;
      hooks := blocks_get (arg_blocks a) "hooks" PyNone;
      use_readout := blocks_get (arg_blocks a) "use_readout" (PyStr "ignore");
      scale := blocks_get (arg_blocks a) "scale" (PyFloat 1);
      shift := blocks_get (arg_blocks a) "shift" (PyFloat 0);
      pretrained := pre;
      scratch := built_scratch a rn1 rn2 rn3 rn4 head;
      auxlayer := None;
      loaded := if py_truthy (arg_path a) then Some (arg_path a) else None;
      freeze_bn := negb (blocks_flag (arg_blocks a) "freeze_bn" PyFalse)
    |}.
Proof.
  unfold __init__. cbv zeta. intros H.
  apply bind_inr in H as (? & ? & ? & Hp & H & ->). apply print_inr in Hp as ->.
  apply bind_inr in H as (? & [p [[[rn1 rn2] rn3] rn4]] & ? & Henc & H & ->).
  performed Henc.
  rewrite getitem_set_default_activation in H.
  apply bind_inr in H as (? & act & ? & Hact & H & ->).
  apply ret_inr in Hact as [-> ->].
  apply bind_inr in H as (tra & activation & ? & Hsel & H & ->).
  set (act := blocks_get (arg_blocks a) "activation" PyNone) in *.
  assert (activation = selected_activation act ∧ Forall builds tra) as [-> Htra].
  { unfold selected_activation.
    destruct (py_eq act (PyStr "mish")); [discriminate Hsel|].
    destruct (py_eq act (PyStr "hard_mish")); [discriminate Hsel|].
    destruct (py_eq act (PyStr "leaky")); [|destruct (py_eq act (PyStr "relu"))];
      apply new_inr in Hsel as (_ & -> & ->); by repeat constructor. }
  do 4 (let Hs := fresh "Hs" in
        apply bind_inr in H as (? & ? & ? & Hs & H & ->);
        apply new_inr in Hs as (_ & -> & ->)).
  apply bind_inr in H as (trh & head & ? & Hhead & H & ->).
  assert (selected_head a (selected_activation act) = Some head ∧
          Forall builds trh) as [Hsel' Htrh].
  { unfold selected_head. cbv zeta.
    destruct (py_eq (arg_monodepth a) PyTrue).
    - do 6 (let Hs := fresh "Hs" in
            apply bind_inr in Hhead as (? & ? & ? & Hs & Hhead & ->);
            apply new_inr in Hs as (_ & -> & ->)).
      apply ret_inr in Hhead as [-> ->]. by repeat constructor.
    - apply bind_inr in Hhead as (? & w & ? & Hw & Hhead & ->).
      rewrite getitem_set_default_activation_ne in Hw by done.
      apply getitem_inr in Hw as [Hw ->]. rewrite Hw. cbn [mbind option_bind].
      destruct (py_eq w PyTrue).
      + apply bind_inr in Hhead as (? & ? & ? & Hp & Hhead & ->).
        apply print_inr in Hp as ->.
        do 6 (let Hs := fresh "Hs" in
              apply bind_inr in Hhead as (? & ? & ? & Hs & Hhead & ->);
              apply new_inr in Hs as (_ & -> & ->)).
        apply ret_inr in Hhead as [-> ->]. by repeat constructor.
      + apply bind_inr in Hhead as (? & whr & ? & Hwhr & Hhead & ->).
        rewrite getitem_set_default_activation_ne in Hwhr by done.
        apply getitem_inr in Hwhr as [Hwhr ->]. rewrite Hwhr.
        cbn [mbind option_bind].
        destruct (py_eq whr PyTrue).
        * apply bind_inr in Hhead as (? & ? & ? & Hp & Hhead & ->).
          apply print_inr in Hp as ->.
          do 4 (let Hs := fresh "Hs" in
                apply bind_inr in Hhead as (? & ? & ? & Hs & Hhead & ->);
                apply new_inr in Hs as (_ & -> & ->)).
          apply ret_inr in Hhead as [-> ->]. by repeat constructor.
        * do 4 (let Hs := fresh "Hs" in
                apply bind_inr in Hhead as (? & ? & ? & Hs & Hhead & ->);
                apply new_inr in Hs as (_ & -> & ->)).
          apply ret_inr in Hhead as [-> ->]. by repeat constructor. }
  apply bind_inr in H as (? & aux & ? & Haux & H & ->).
  rewrite blocks_flag_set_default_activation in Haux by done.
  destruct (blocks_flag (arg_blocks a) "aux" PyTrue); [discriminate Haux|].
  apply ret_inr in Haux as [-> ->].
  apply bind_inr in H as (trl & ld & ? & Hld & H & ->).
  assert (trl = (if py_truthy (arg_path a) then [EvLoad (arg_path a)] else []) ∧
          ld = (if py_truthy (arg_path a) then Some (arg_path a) else None) ∧
          (py_truthy (arg_path a) = true → load (arg_path a) = None))
    as (-> & -> & Hload).
  { destruct (py_truthy (arg_path a)).
    - apply bind_inr in Hld as (? & [] & ? & Hl & Hld & ->).
      performed Hl. apply ret_inr in Hld as [-> ->].
      destruct (load (arg_path a)); [discriminate Hl | done].
    - by apply ret_inr in Hld as [-> ->]. }
  apply bind_inr in H as (trp & pre & ? & Hpre & H & ->).
  rewrite (blocks_flag_set_default_activation _ "freeze_bn") in * by done.
  assert (trp = (if blocks_flag (arg_blocks a) "freeze_bn" PyFalse
                 then [] else [EvFreezeNorm p]) ∧
          (if blocks_flag (arg_blocks a) "freeze_bn" PyFalse
           then pre = p else freeze_norm p = inr pre)) as (-> & Hfrozen).
  { destruct (blocks_flag (arg_blocks a) "freeze_bn" PyFalse); cbn [negb] in Hpre.
    - by apply ret_inr in Hpre as [-> ->].
    - by performed Hpre. }
  apply ret_inr in H as [-> ->].
  cbn [app].
  match goal with
  | |- context [tra ++ ?e4 :: ?e3 :: ?e2 :: ?e1 :: _] =>
      exists p, rn1, rn2, rn3, rn4, (tra ++ [e4; e3; e2; e1] ++ trh), head, pre
  end.
  split; [done|]. split; [exact Hsel'|].
  split; [|split; [|split; [exact Hload|split; [exact Hfrozen|reflexivity]]]].
  - by repeat first [apply Forall_app_2 | apply Forall_cons_2 | apply Forall_nil_2].
  - cbn [app]. rewrite !app_nil_r. do 2 f_equal.
    rewrite <- !app_assoc. reflexivity.
Qed.

End MoreConstruction.

(** * The phases of a pass *)

Section Phases.
Context {L : TorchLib}.

Lemma ascending_app rs1 rs2 :
  ascending rs1 → ascending rs2 →
  Forall (λ r1, Forall (λ r2, (r1 ≤ r2)%nat) rs2) rs1 →
  ascending (rs1 ++ rs2).
Proof.
  induction rs1 as [|r rs1 IH]; cbn; [done|].
  intros [Hr H1] H2 Hall. apply Forall_cons_1 in Hall as [Hr2 Hall].
  split; [by apply Forall_app_2 | by apply IH].
Qed.

Lemma staged_bind {A B} lo mid hi (m : M A) (f : A → M B) :
  (lo ≤ mid ≤ hi)%nat →
  staged lo mid m → (∀ a, staged mid hi (f a)) → staged lo hi (m ≫= f).
Proof.
  intros Hb [Hm1 Hm2] Hf. unfold staged, phases_in_order. rewrite bind_trace.
  destruct m as [tr [e|a]]; cbn [fst snd] in *.
  - rewrite app_nil_r. split; [done|].
    eapply Forall_impl; [exact Hm2|]. cbn; lia.
  - destruct (Hf a) as [Hf1 Hf2]. rewrite fmap_app. split.
    + apply ascending_app; [done..|].
      apply Forall_fmap. eapply Forall_impl; [exact Hm2|]. intros ev Hev.
      apply Forall_fmap. eapply Forall_impl; [exact Hf2|]. intros ev' Hev'.
      unfold compose. cbn beta in Hev, Hev'. lia.
    + apply Forall_app_2; (eapply Forall_impl; [eassumption | cbn; lia]).
Qed.

Lemma staged_nil {A} lo hi (c : M A) : c.1 = [] → staged lo hi c.
Proof. unfold staged, phases_in_order. intros ->. by split. Qed.

Lemma staged_perform lo hi ev :
  (lo ≤ rank ev ≤ hi)%nat → staged lo hi (perform ev).
Proof.
  intros Hev. unfold staged, phases_in_order. cbn.
  split; [split; [apply Forall_nil_2 | done]|].
  apply Forall_cons_2; [done | apply Forall_nil_2].
Qed.

Lemma staged_apply lo hi s l args :
  (lo ≤ rank (EvApply s l args) ≤ hi)%nat → staged lo hi (apply s l args).
Proof. exact (staged_perform lo hi (EvApply s l args)). Qed.

Lemma staged_getattr {A} lo hi name (o : option A) : staged lo hi (getattr name o).
Proof. apply staged_nil. by destruct o. Qed.

Lemma staged_call_seq lo hi r slot k ls x :
  (∀ j l a, rank (EvApply (slot j) l a) = r) → (lo ≤ r ≤ hi)%nat →
  staged lo hi (call_seq slot k ls x).
Proof.
  intros Hslot. revert lo k x.
  induction ls as [|l ls IH]; intros lo k x Hr; cbn [call_seq].
  - by apply staged_nil.
  - apply (staged_bind lo r hi); [done| |intros y; apply IH; lia].
    apply staged_apply. rewrite Hslot. lia.
Qed.

End Phases.

(** One step of a pass: the phase of the call made, then the rest. *)
Ltac stage_step :=
  lazymatch goal with
  | |- staged ?lo ?hi (getattr _ _ ≫= _) =>
      apply (staged_bind lo lo hi); [lia | apply staged_getattr | intros ?]
  | |- staged ?lo ?hi (apply ?s ?l ?a ≫= _) =>
      let r := eval cbv in (rank (EvApply s l a)) in
      apply (staged_bind lo r hi);
        [lia | apply staged_apply; cbn; lia | intros ?]
  | |- staged ?lo ?hi (print ?a ≫= _) =>
      apply (staged_bind lo 0%nat hi);
        [lia | apply (staged_perform lo 0%nat (EvPrint a)); cbn; lia | intros ?]
  | |- staged ?lo ?hi (perform ?ev ≫= _) =>
      let r := eval cbv in (rank ev) in
      apply (staged_bind lo r hi);
        [lia | apply staged_perform; cbn; lia | intros ?]
  | |- staged ?lo ?hi (call_seq ?slot _ _ _ ≫= _) =>
      let r := eval cbv in (rank (EvApply (slot 0%nat) Identity [])) in
      apply (staged_bind lo r hi);
        [lia | apply (staged_call_seq lo r r); [done | lia] | intros ?]
  | |- staged _ _ (mret _) => by apply staged_nil
  | |- staged _ _ (raise _) => by apply staged_nil
  end.

Section ForwardPhases.
Context {L : TorchLib}.

Lemma forward_staged self x : staged 0 5 (forward self x).
Proof.
  unfold forward.
  apply (staged_bind 0 0 5); [lia| |intros _].
  { destruct (py_eq _ _); repeat stage_step. }
  apply (staged_bind 0 1 5); [lia| |intros layers].
  { destruct (model _) as [vit|]; [destruct (patch_size vit)|]; repeat stage_step. }
  apply (staged_bind 1 1 5); [lia| |intros [[[l1 l2] l3] l4]].
  { destruct layers; stage_step. }
  do 11 stage_step.
  destruct (auxlayer self); [|destruct (py_eq _ _)]; repeat stage_step.
Qed.

End ForwardPhases.

(** * Runs that return *)

Section Returns.
Context {L : TorchLib}.

Lemma returns_cleanly_bind {A B} (m : M A) (f : A → M B) :
  returns_cleanly m → (∀ a, returns_cleanly (f a)) → returns_cleanly (m ≫= f).
Proof.
  intros Hm Hf v. rewrite bind_trace, bind_result.
  destruct m as [tr [e|a]]; cbn [fst snd]; [discriminate|]. intros Hv.
  unfold calls_succeed. rewrite forallb_app.
  apply andb_true_intro. split; [by apply (Hm a) | by apply (Hf a v)].
Qed.

Lemma returns_cleanly_perform ev : returns_cleanly (perform ev).
Proof.
  intros v. unfold perform, calls_succeed, event_ok. cbn.
  by destruct (run_event ev).
Qed.

Lemma returns_cleanly_nil {A} (c : M A) : c.1 = [] → returns_cleanly c.
Proof. intros Hc v _. by rewrite Hc. Qed.

Lemma returns_cleanly_call_seq slot k ls x : returns_cleanly (call_seq slot k ls x).
Proof.
  revert k x. induction ls as [|l ls IH]; intros k x; cbn [call_seq].
  - by apply returns_cleanly_nil.
  - apply returns_cleanly_bind; [|by intros].
    exact (returns_cleanly_perform (EvApply (slot k) l [x])).
Qed.

End Returns.

(** Closes the goals about steps that return after calls that returned. *)
Ltac returned_cleanly :=
  repeat first
    [ apply returns_cleanly_call_seq
    | match goal with
      | |- returns_cleanly (perform ?ev) => exact (returns_cleanly_perform ev)
      | |- returns_cleanly (apply ?s ?l ?a) =>
          exact (returns_cleanly_perform (EvApply s l a))
      | |- returns_cleanly (print ?a) =>
          exact (returns_cleanly_perform (EvPrint a))
      | |- returns_cleanly (new ?l) =>
          exact (returns_cleanly_perform (EvNew l))
      | |- returns_cleanly (mret _) => by apply returns_cleanly_nil
      | |- returns_cleanly (raise _) => by apply returns_cleanly_nil
      | |- returns_cleanly (getattr _ ?o) =>
          apply returns_cleanly_nil; by destruct o
      | |- returns_cleanly (getitem ?d ?k) =>
          apply returns_cleanly_nil; unfold getitem; by destruct (d !! k)
      | |- returns_cleanly (if ?b then _ else _) => destruct b
      | |- returns_cleanly (match ?o with Some _ => _ | None => _ end) =>
          destruct o
      | |- returns_cleanly (let '(_, _) := ?p in _) => destruct p
      end
    | apply returns_cleanly_bind; [|intros] ].

Section ForwardReturnsCleanly.
Context {L : TorchLib}.

Lemma forward_returns_cleanly self x : returns_cleanly (forward self x).
Proof. unfold forward. returned_cleanly. Qed.

Lemma init_returns_cleanly a : returns_cleanly (__init__ a).
Proof. unfold __init__. cbv zeta. returned_cleanly. Qed.

Lemma backbone_maps_usable self x l1 l2 l3 l4 :
  backbone_maps self x l1 l2 l3 l4 → encoder_usable (pretrained self).
Proof.
  intros [vit ps y1 y2 y3 y4 Hmodel Hps _
         | m1 m2 m3 m4 y1 y2 y3 y4 Hmodel Hm1 _ Hm2 _ Hm3 _ Hm4 _].
  - left. by exists vit, ps.
  - right. rewrite Hm1, Hm2, Hm3, Hm4. by repeat split.
Qed.

End ForwardReturnsCleanly.

(** The preamble of a pass whose conversion returns. *)
Ltac converted Hc :=
  destruct (py_eq _ _) eqn:Hflag;
    [destruct (Hc Hflag) as [? Hconv]; unfold print, perform; cbn;
     rewrite Hconv; reflexivity
    | reflexivity].

(** The backbone of a pass that produced its four maps. *)
Ltac extracted Hm :=
  destruct Hm as [vit ps y1 y2 y3 y4 Hmodel Hps Hvit
                 | m1 m2 m3 m4 y1 y2 y3 y4 Hmodel Hm1 Hc1 Hm2 Hc2 Hm3 Hc3 Hm4 Hc4];
    rewrite Hmodel;
    [rewrite Hps; unfold perform; cbn; rewrite Hvit; reflexivity
    | rewrite Hm1, Hm2, Hm3, Hm4; unfold getattr, apply, perform; cbn;
      rewrite Hc1; cbn; rewrite Hc2; cbn; rewrite Hc3; cbn; rewrite Hc4;
      reflexivity].

(** * The symbolic library satisfies the shape laws *)

Lemma sym_module_call_shape s l x rest y :
  Sym.sym_module_call s l (x :: rest) = inr y →
  ∃ n c h w c' h' w',
    Sym.st_shape x = [n; c; h; w] ∧
    Sym.layer_chw l n c h w (Sym.st_shape <$> rest) = Some (c', h', w') ∧
    Sym.st_shape y = [n; c'; h'; w'].
Proof.
  unfold Sym.sym_module_call.
  destruct (Sym.st_shape x) as [|n [|c [|h [|w [|]]]]]; try discriminate.
  destruct (Sym.layer_chw _ _ _ _ _ _) as [[[c' h'] w']|] eqn:E; [|discriminate].
  intros [= <-]. by exists n, c, h, w, c', h', w'.
Qed.

#[export] Instance sym_laws : TorchLaws Sym.lib.
Proof.
  split.
  - intros s l [|x rest] y b Hcall Hne Hall; [done|].
    apply sym_module_call_shape in Hcall
      as (n & c & h & w & c' & h' & w' & Hx & _ & Hy).
    apply Forall_cons_1 in Hall as [(c0 & h0 & w0 & Hx') _].
    cbn in Hx'. rewrite Hx in Hx'. injection Hx' as -> _ _ _.
    by exists c', h', w'.
  - intros s cin cout k st p g bias x y b Hcall (c0 & h0 & w0 & Hx').
    apply sym_module_call_shape in Hcall
      as (n & c & h & w & c' & h' & w' & Hx & Hl & Hy).
    cbn in Hx'. rewrite Hx in Hx'. injection Hx' as -> _ _ _.
    cbn in Hl. destruct (c =? cin); [|discriminate].
    destruct (Sym.conv_out h k st p); [|discriminate].
    destruct (Sym.conv_out w k st p); [|discriminate].
    cbn in Hl. injection Hl as <- <- <-. cbn. eauto.
  - intros s i x y Hcall.
    apply sym_module_call_shape in Hcall
      as (n & c & h & w & c' & h' & w' & Hx & Hl & Hy).
    cbn in Hl. injection Hl as <- <- <-. cbn. congruence.
  - intros s x y Hcall.
    apply sym_module_call_shape in Hcall
      as (n & c & h & w & c' & h' & w' & Hx & Hl & Hy).
    cbn in Hl. injection Hl as <- <- <-. cbn. congruence.
  - intros p x l1 l2 l3 l4 b Hvit (c0 & h0 & w0 & Hx'). cbn in *.
    unfold Sym.sym_forward_vit in Hvit. rewrite Hx' in Hvit.
    destruct (c0 =? 3); [|discriminate].
    injection Hvit as <- <- <- <-. unfold feature_map; cbn.
    repeat split; by do 3 eexists.
  - intros x v y. cbn. unfold Sym.sym_scalar_op.
    destruct (py_num v); [|discriminate]. by intros [= <-].
  - intros x v y. cbn. unfold Sym.sym_scalar_op.
    destruct (py_num v); [|discriminate]. by intros [= <-].
  - intros x y b h w. cbn. unfold Sym.sym_squeeze. intros Hsq Hx.
    rewrite Hx in Hsq. cbn in Hsq. by injection Hsq as <-.
Qed.

(** * Runs on the symbolic library *)

Lemma default_init :
  __init__ (L:=Sym.lib) default_args = (default_init_trace, inr vit_depth_model).
Proof. reflexivity. Qed.

Lemma depth_pass_eq : forward (L:=Sym.lib) vit_depth_model image64 = depth_pass.
Proof. reflexivity. Qed.

Lemma short_pass_eq : forward (L:=Sym.lib) vit_depth_model short_image = short_pass.
Proof. reflexivity. Qed.

Lemma channels_last_pass_eq :
  forward (L:=Sym.lib) (with_channels_last PyTrue vit_depth_model) image64
  = channels_last_pass.
Proof. reflexivity. Qed.

Lemma plain_pass_eq :
  forward (L:=Sym.lib) (with_channels_last PyFalse vit_depth_model) image64
  = depth_pass.
Proof. reflexivity. Qed.

Lemma aux_pass_eq : forward (L:=Sym.lib) aux_model image64 = aux_pass.
Proof. reflexivity. Qed.

Lemma empty_init_eq : __init__ (L:=Sym.lib) empty_args = empty_init.
Proof. reflexivity. Qed.

Lemma seg_full_init_eq : __init__ (L:=Sym.lib) seg_full_args = seg_full_init.
Proof. reflexivity. Qed.

(** * More runs on the symbolic library *)

#[export] Instance sym_resize_laws : ResizeLaws Sym.lib.
Proof.
  split.
  - intros s sf mode ac x y b c h w Hcall Hx.
    apply sym_module_call_shape in Hcall
      as (n & c0 & h0 & w0 & c' & h' & w' & Hx' & Hl & Hy).
    cbn in Hx. rewrite Hx' in Hx. injection Hx as -> -> -> ->.
    cbn in Hl. injection Hl as <- <- <-. cbn. eauto.
  - intros x size mode ac y. cbn. unfold Sym.sym_interpolate.
    destruct (Sym.st_shape x) as [|n [|c [|h [|w [|]]]]]; try discriminate.
    destruct size as [|h' [|w' [|]]]; try discriminate.
    by intros [= <-].
Qed.

Lemma checkpoint_init :
  __init__ (L:=Sym.lib) checkpoint_args = (checkpoint_trace, inr checkpoint_model).
Proof. reflexivity. Qed.

Lemma unfrozen_init :
  __init__ (L:=Sym.lib) unfrozen_args = (unfrozen_trace, inr unfrozen_model).
Proof. reflexivity. Qed.

Lemma expand_init :
  __init__ (L:=Sym.lib) expand_args = (expand_trace, inr expand_model).
Proof. reflexivity. Qed.

Lemma empty_init_built :
  __init__ (L:=Sym.lib) empty_args = (empty_trace, inr empty_model).
Proof. reflexivity. Qed.

Lemma seg_init :
  __init__ (L:=Sym.lib) seg_full_args = (seg_init_trace, inr seg_model).
Proof. reflexivity. Qed.

Lemma seg_pass_eq : forward (L:=Sym.lib) seg_model image64 = seg_pass.
Proof. reflexivity. Qed.

(** * Results *)

Section Results.
Context {L : TorchLib}.

(** C1.  For a model built in depth mode and an image batch
    (batch, 3, H, W): a pass that returns, returns one array; it is the
    head result, of shape (batch, 1, H', W'), times [scale] plus [shift],
    with the channel axis squeezed away, so of shape (batch, H', W').  The
    pass returns when the encoder object is of one of the two kinds and no
    collaborator call fails; a pass that does not return stopped in a
    collaborator or on an encoder object it cannot read. *)
Theorem depth_forward_is_squeezed_affine_head `{!TorchLaws L}
    a tr0 self x b H W :
  __init__ a = (tr0, inr self) →
  py_eq (arg_monodepth a) PyTrue = true →
  shape x = [b; 3; H; W] →
  (encoder_usable (pretrained self) → calls_succeed (forward self x).1 →
   ∃ v, (forward self x).2 = inr v) ∧
  (∀ tr e, forward self x = (tr, inl e) →
     lib_failure tr e ∨ encoder_unusable (pretrained self) e) ∧
  (∀ tr v, forward self x = (tr, inr v) →
     ∃ r1 path_2 path_1 trH head_out scaled out sq H' W',
       module_call (scratch_refinenet S1) (refinenet1 (scratch self))
         [path_2; r1] = inr path_1 ∧
       call_seq scratch_output_conv 0 (output_conv (scratch self)) path_1
         = (trH, inr head_out) ∧
       shape head_out = [b; 1; H'; W'] ∧
       scale self = blocks_get (arg_blocks a) "scale" (PyFloat 1) ∧
       shift self = blocks_get (arg_blocks a) "shift" (PyFloat 0) ∧
       tensor_mul head_out (scale self) = inr scaled ∧
       tensor_add scaled (shift self) = inr out ∧
       squeeze out 1 = inr sq ∧
       v = Single sq ∧
       shape sq = [b; H'; W']).
Proof.
  intros Hinit Hdepth Hx. split; [apply forward_returns|]. split.
  { intros tr e Hf. apply forward_only_fails in Hf. tauto. }
  intros tr v Hrun.
  apply init_inr in Hinit
    as (_ & _ & _ & _ & Haux & Hmono & _ & Hscale & Hshift & _ & _ & Hhead).
  specialize (Hhead Hdepth).
  apply forward_inr in Hrun.
  destruct Hrun as [pre l1 l2 l3 l4 r1 r2 r3 r4 path_4 path_3 path_2 path_1
                      trH head_out scaled out trT v Hpre Hmaps
                      H1 H2 H3 H4 H5 H6 H7 H8 HH Hmul Hadd Htail].
  assert (feature_map b x) as Hfx by (by exists 3, H, W).
  destruct (backbone_maps_batch _ _ b _ _ _ _ Hmaps Hfx) as (Hl1 & Hl2 & Hl3 & Hl4).
  assert (feature_map b r1) by propagate_batch.
  assert (feature_map b r2) by propagate_batch.
  assert (feature_map b r3) by propagate_batch.
  assert (feature_map b r4) by propagate_batch.
  assert (feature_map b path_4) by propagate_batch.
  assert (feature_map b path_3) by propagate_batch.
  assert (feature_map b path_2) by propagate_batch.
  assert (feature_map b path_1) by propagate_batch.
  assert (∃ H' W', shape head_out = [b; 1; H'; W']) as (H' & W' & Hshape).
  { pose proof HH as HH'. rewrite Hhead in HH'. cbn [call_seq] in HH'.
    apply bind_inr in HH' as (? & y1 & ? & Hy1 & HH' & _).
    apply apply_inr in Hy1 as [Hy1 _].
    apply bind_inr in HH' as (? & y2 & ? & Hy2 & HH' & _).
    apply apply_inr in Hy2 as [Hy2 _].
    apply bind_inr in HH' as (? & y3 & ? & Hy3 & HH' & _).
    apply apply_inr in Hy3 as [Hy3 _].
    apply bind_inr in HH' as (? & y4 & ? & Hy4 & HH' & _).
    apply apply_inr in Hy4 as [Hy4 _].
    apply bind_inr in HH' as (? & y5 & ? & Hy5 & HH' & _).
    apply apply_inr in Hy5 as [Hy5 _].
    apply bind_inr in HH' as (? & y6 & ? & Hy6 & HH' & _).
    apply apply_inr in Hy6 as [Hy6 _].
    apply bind_inr in HH' as (? & y7 & ? & Hy7 & HH' & _).
    apply apply_inr in Hy7 as [Hy7 _].
    apply ret_inr in HH' as [-> _].
    assert (feature_map b y1) by propagate_batch.
    assert (feature_map b y2) by propagate_batch.
    assert (feature_map b y3) by propagate_batch.
    assert (feature_map b y4) as Hf4 by propagate_batch.
    destruct (conv2d_out_channels _ _ _ _ _ _ _ _ _ _ b Hy5 Hf4) as (h & w & Hs5).
    exists h, w.
    apply identity_shape in Hy7. rewrite Hy7.
    destruct (py_truthy (arg_non_negative a));
      [apply relu_shape in Hy6 | apply identity_shape in Hy6];
      by rewrite Hy6, Hs5. }
  assert (shape out = [b; 1; H'; W']) as Hout.
  { apply tensor_add_shape in Hadd. apply tensor_mul_shape in Hmul. congruence. }
  destruct Htail as [aux trA raw auxout Hsome _ _ | sq _ _ Hsq | _ Hplain].
  - congruence.
  - exists r1, path_2, path_1, trH, head_out, scaled, out, sq, H', W'.
    repeat split; try done. by eapply squeeze_unit.
  - congruence.
Qed.

(** C2.  In every forward pass the projection and fusion calls made are an
    initial part of: layer1_rn, layer2_rn, layer3_rn, layer4_rn,
    refinenet4, refinenet3, refinenet2, refinenet1; so no fusion block
    runs before the four projections have.  In a pass that returns, all
    eight are made, refinenet4 is given the projected deepest map alone,
    and refinenet3, 2 and 1 are each given the output of the fusion block
    before and the projected map of their own level. *)
Theorem projections_then_top_down_fusion self x :
  stage_calls (forward self x).1 `prefix_of` top_down ∧
  ∀ tr v, forward self x = (tr, inr v) →
    stage_calls tr = top_down ∧
    ∃ pre post l1 l2 l3 l4 r1 r2 r3 r4 path_4 path_3 path_2 path_1,
      tr = pre ++
        [EvApply (scratch_layer_rn S1) (layer1_rn (scratch self)) [l1];
         EvApply (scratch_layer_rn S2) (layer2_rn (scratch self)) [l2];
         EvApply (scratch_layer_rn S3) (layer3_rn (scratch self)) [l3];
         EvApply (scratch_layer_rn S4) (layer4_rn (scratch self)) [l4];
         EvApply (scratch_refinenet S4) (refinenet4 (scratch self)) [r4];
         EvApply (scratch_refinenet S3) (refinenet3 (scratch self)) [path_4; r3];
         EvApply (scratch_refinenet S2) (refinenet2 (scratch self)) [path_3; r2];
         EvApply (scratch_refinenet S1) (refinenet1 (scratch self)) [path_2; r1]]
        ++ post ∧
      stage_calls pre = [] ∧ stage_calls post = [] ∧
      backbone_maps self x l1 l2 l3 l4 ∧
      module_call (scratch_layer_rn S1) (layer1_rn (scratch self)) [l1] = inr r1 ∧
      module_call (scratch_layer_rn S2) (layer2_rn (scratch self)) [l2] = inr r2 ∧
      module_call (scratch_layer_rn S3) (layer3_rn (scratch self)) [l3] = inr r3 ∧
      module_call (scratch_layer_rn S4) (layer4_rn (scratch self)) [l4] = inr r4 ∧
      module_call (scratch_refinenet S4) (refinenet4 (scratch self)) [r4]
        = inr path_4 ∧
      module_call (scratch_refinenet S3) (refinenet3 (scratch self)) [path_4; r3]
        = inr path_3 ∧
      module_call (scratch_refinenet S2) (refinenet2 (scratch self)) [path_3; r2]
        = inr path_2 ∧
      module_call (scratch_refinenet S1) (refinenet1 (scratch self)) [path_2; r1]
        = inr path_1.
Proof.
  split; [apply forward_stage_calls|].
  intros tr v Hrun. apply forward_inr in Hrun.
  destruct Hrun as [pre l1 l2 l3 l4 r1 r2 r3 r4 path_4 path_3 path_2 path_1
                      trH head_out scaled out trT v Hpre Hmaps
                      H1 H2 H3 H4 H5 H6 H7 H8 HH Hmul Hadd Htail].
  assert (stage_calls pre = []) as Hq1.
  { apply stage_calls_phase. eapply Forall_impl; [exact Hpre|].
    intros ev [-> | ->]; discriminate. }
  assert (stage_calls trH = []) as HqH.
  { apply stage_calls_phase.
    pose proof (call_seq_phase scratch_output_conv Head 0
                  (output_conv (scratch self)) path_1) as Hh.
    rewrite HH in Hh. eapply Forall_impl; [by apply Hh|].
    intros ev ->; discriminate. }
  assert (stage_calls trT = []) as HqT.
  { apply stage_calls_phase. eapply Forall_impl; [by eapply tail_run_phase|].
    intros ev ->; discriminate. }
  split.
  - rewrite !stage_calls_app, Hq1, HqH, HqT. reflexivity.
  - exists pre,
      (trH ++ [EvMul head_out (scale self); EvAdd scaled (shift self)] ++ trT),
      l1, l2, l3, l4, r1, r2, r3, r4, path_4, path_3, path_2, path_1.
    repeat split; try done.
    rewrite !stage_calls_app, HqH, HqT. reflexivity.
Qed.

(** C3 (as amended).  Construction behaves alike, in what it prints and
    calls and in the model or failure it ends with, (1) when keys that are
    absent are added with the value absence stands for: identity
    activation (None), batch_norm False, freeze_bn True, expand False,
    hooks None, use_readout "ignore", no auxiliary head (None), scale 1.0,
    shift 0.0; and (2) under any change of the mapping on keys it does not
    look up, which are all keys but activation, batch_norm, freeze_bn,
    hooks, use_readout, aux, scale, shift and, outside depth mode,
    widehead and (unless widehead is True) widehead_hr.  (3) Outside depth
    mode construction never succeeds without the key widehead. *)
Theorem optional_and_ignored_keys a :
  (∀ D, D ⊆ absent_defaults →
     same_construction (__init__ a) (__init__ (with_blocks (arg_blocks a ∪ D) a))) ∧
  (∀ b', (∀ k, k ∈ consulted a → b' !! k = arg_blocks a !! k) →
     same_construction (__init__ a) (__init__ (with_blocks b' a))) ∧
  (py_eq (arg_monodepth a) PyTrue = false →
   arg_blocks a !! "widehead" = None →
   ∀ tr m, __init__ a ≠ (tr, inr m)).
Proof.
  split; [|split].
  - intros D HD. rewrite <- (with_blocks_id a) at 1.
    apply init_ext. by apply same_reads_defaults.
  - intros b' Hb'. rewrite <- (with_blocks_id a) at 1.
    apply init_ext. by apply same_reads_consulted.
  - intros Hseg Hw tr m H. apply init_inr in H as (_&_&_&_&_&_&_&_&_&_& Hkeys &_).
    destruct Hkeys as [Hd | (w & Hw' & _)]; congruence.
Qed.

(** C4 (the code does not do this).  With the auxiliary
    head enabled, construction never returns a model; when nothing before
    it fails, it stops at the auxiliary stack on the unbound name
    [features2]. *)
Theorem aux_head_is_never_constructed a :
  blocks_flag (arg_blocks a) "aux" PyTrue = true →
  (∀ tr m, __init__ a ≠ (tr, inr m)) ∧
  (activation_bound a → head_keys_present a → calls_succeed (__init__ a).1 →
   (__init__ a).2 = inl (NameError "features2")).
Proof.
  intros Haux.
  assert (∀ tr m, __init__ a ≠ (tr, inr m)) as Hnever.
  { intros tr m H. apply init_inr in H as (_ & _ & _ & Hno & _). congruence. }
  split; [done|]. intros [Hmish Hhard] Hkeys Hok.
  destruct (__init__ a) as [tr [e|m]] eqn:Hinit; [|by destruct (Hnever tr m)].
  cbn in *. f_equal.
  destruct (init_only_fails a tr e Hinit) as [Hown | Hlib];
    [|by destruct (lib_failure_calls_succeed tr e)].
  destruct Hown as [Hm | Hm Hh | _ Hd Hw | w _ Hd Hw Hne Hwhr | _ _ _];
    try congruence.
  - destruct Hkeys as [Hd' | (w & Hw' & _)]; congruence.
  - destruct Hkeys as [Hd' | (w' & Hw' & [Hw'' | [whr Hwhr']])]; congruence.
Qed.

(** C5 (the code does not do this).  An encoder object that
    has a [model] attribute without [patch_size] takes neither branch:
    whatever its attributes [layer1..layer4] hold, the four feature maps
    stay unassigned and the first projection raises on the unbound local. *)
Theorem model_without_patch_size_leaves_layers_unbound self x vit :
  py_eq (channels_last self) PyTrue = false →
  model (pretrained self) = Some vit →
  patch_size vit = None →
  forward self x = ([], inl (UnboundLocalError "layer_1")).
Proof.
  intros Hcl Hmodel Hps. unfold forward. by rewrite Hcl, Hmodel, Hps.
Qed.

(** C6.  In segmentation mode, with "widehead" present and not equal to
    True and "widehead_hr" absent: construction never returns a model, so
    no head is chosen by default; when the activation classes are bound
    and no collaborator call fails, it fails with the missing-key error on
    "widehead_hr"; and whenever it fails otherwise, it failed before
    reaching the head selection. *)
Theorem missing_widehead_hr_is_a_lookup_failure a w :
  py_eq (arg_monodepth a) PyTrue = false →
  arg_blocks a !! "widehead" = Some w →
  py_eq w PyTrue = false →
  arg_blocks a !! "widehead_hr" = None →
  (∀ tr m, __init__ a ≠ (tr, inr m)) ∧
  (activation_bound a → calls_succeed (__init__ a).1 →
   (__init__ a).2 = inl (KeyError "widehead_hr")) ∧
  (∀ tr e, __init__ a = (tr, inl e) →
     e = KeyError "widehead_hr" ∨ e = NameError "Mish" ∨
     e = NameError "HardMish" ∨ lib_failure tr e).
Proof.
  intros Hseg Hw Hne Hwhr.
  assert (¬ head_keys_present a) as Hnokeys.
  { intros [Hd | (w' & Hw' & [Hw'' | [whr Hwhr']])]; congruence. }
  assert (∀ tr m, __init__ a ≠ (tr, inr m)) as Hnever.
  { intros tr m H. apply init_inr in H. tauto. }
  assert (∀ tr e, __init__ a = (tr, inl e) →
     e = KeyError "widehead_hr" ∨ e = NameError "Mish" ∨
     e = NameError "HardMish" ∨ lib_failure tr e) as Hclass.
  { intros tr e Hinit.
    destruct (init_only_fails a tr e Hinit) as [Hown | Hlib]; [|tauto].
    destruct Hown; try tauto; congruence. }
  split; [done|]. split; [|done].
  intros [Hmish Hhard] Hok.
  destruct (__init__ a) as [tr [e|m]] eqn:Hinit; [|by destruct (Hnever tr m)].
  cbn in *. f_equal.
  destruct (init_only_fails a tr e Hinit) as [Hown | Hlib];
    [|by destruct (lib_failure_calls_succeed tr e)].
  destruct Hown; try tauto; congruence.
Qed.

(** C7.  A forward pass that fails either stopped at a collaborator call
    that failed, with that collaborator's exception, or raised on an
    encoder object without the attributes the branch taken reads, which
    does not depend on the input. *)
Theorem forward_raises_nothing_of_its_own self x tr e :
  forward self x = (tr, inl e) →
  lib_failure tr e ∨ encoder_unusable (pretrained self) e.
Proof.
  intros H. apply forward_only_fails in H. tauto.
Qed.

(** C8.  Constructing with another value of the flag changes the field
    [channels_last] of the model and nothing else.  With the flag set the
    pass prints, converts the input and drops the result; if the
    conversion does not fail the outcome is the one without the flag.  Two
    passes over the same input that return, return the same value whatever
    the flag is. *)
Theorem channels_last_does_not_reach_the_output self x c :
  (∀ a tr, __init__ a = (tr, inr self) →
     __init__ (with_arg_channels_last c a) = (tr, inr (with_channels_last c self))) ∧
  (forward (with_channels_last c self) x).2 =
    (if py_eq c PyTrue then
       match contiguous x with
       | inl msg => inl (LibError msg)
       | inr _ => (forward (with_channels_last PyFalse self) x).2
       end
     else (forward (with_channels_last PyFalse self) x).2) ∧
  ∀ c' tr tr' v v',
    forward (with_channels_last c self) x = (tr, inr v) →
    forward (with_channels_last c' self) x = (tr', inr v') →
    v = v'.
Proof.
  split.
  { intros a tr Hinit. rewrite init_channels_last, Hinit. reflexivity. }
  assert (∀ c, (forward (with_channels_last c self) x).2 =
    (if py_eq c PyTrue then
       match contiguous x with
       | inl msg => inl (LibError msg)
       | inr _ => (forward (with_channels_last PyFalse self) x).2
       end
     else (forward (with_channels_last PyFalse self) x).2)) as Hflag.
  { clear c. intros c. unfold forward.
    cbn [with_channels_last channels_last pretrained scratch scale shift
         auxlayer monodepth].
    rewrite (bind_result (if py_eq c PyTrue then _ else _)).
    rewrite (bind_result (if py_eq PyFalse PyTrue then _ else _)).
    change (py_eq PyFalse PyTrue) with false. cbn [snd mret M_ret].
    destruct (py_eq c PyTrue); [|done].
    rewrite !bind_result. cbn. by destruct (contiguous x). }
  split; [apply Hflag|].
  intros c' tr tr' v v' H H'.
  pose proof (Hflag c) as Hc. pose proof (Hflag c') as Hc'.
  rewrite H in Hc. rewrite H' in Hc'. cbn in Hc, Hc'.
  assert ((forward (with_channels_last PyFalse self) x).2 = inr v) as Hv.
  { destruct (py_eq c PyTrue); [|done]. by destruct (contiguous x). }
  assert ((forward (with_channels_last PyFalse self) x).2 = inr v') as Hv'.
  { destruct (py_eq c' PyTrue); [|done]. by destruct (contiguous x). }
  congruence.
Qed.

(** C9.  Once the encoder is built, an activation value "mish" stops
    construction on the unbound name [Mish] and "hard_mish" on the unbound
    name [HardMish].  For every other value but "leaky" and "relu",
    present or absent: the next call of construction is the constructor
    of the identity, whether or not the run goes on to return;
    construction returns a model with the identity activation whenever no
    collaborator call fails, the head selection finds its keys and the
    auxiliary head is not enabled; and when it fails, the failure is a
    collaborator's or one of the later steps', never an unbound
    activation class.  In a model that was constructed, the activation is
    the identity whenever the key is absent or holds anything but "leaky"
    and "relu". *)
Theorem activation_selection a :
  (∀ enc, _make_encoder (enc_args a) = inr enc →
     (arg_blocks a !! "activation" = Some (PyStr "mish") →
      __init__ a = ([EvPrint [PyStr "Loading weights: "; arg_path a];
                 EvMakeEncoder (enc_args a)],
                inl (NameError "Mish"))) ∧
     (arg_blocks a !! "activation" = Some (PyStr "hard_mish") →
      __init__ a = ([EvPrint [PyStr "Loading weights: "; arg_path a];
                 EvMakeEncoder (enc_args a)],
                inl (NameError "HardMish")))) ∧
  (arg_blocks a !! "activation" ≠ Some (PyStr "mish") →
   arg_blocks a !! "activation" ≠ Some (PyStr "hard_mish") →
   arg_blocks a !! "activation" ≠ Some (PyStr "leaky") →
   arg_blocks a !! "activation" ≠ Some (PyStr "relu") →
   (∀ enc, _make_encoder (enc_args a) = inr enc →
      [EvPrint [PyStr "Loading weights: "; arg_path a];
       EvMakeEncoder (enc_args a);
       EvNew Identity] `prefix_of` (__init__ a).1) ∧
   (calls_succeed (__init__ a).1 → head_keys_present a →
    blocks_flag (arg_blocks a) "aux" PyTrue = false →
    ∃ m, (__init__ a).2 = inr m ∧ activation (scratch m) = Identity) ∧
   (∀ tr e, __init__ a = (tr, inl e) →
      lib_failure tr e ∨ e = KeyError "widehead" ∨ e = KeyError "widehead_hr" ∨
      e = NameError "features2")) ∧
  (∀ tr m, __init__ a = (tr, inr m) →
     arg_blocks a !! "activation" ≠ Some (PyStr "leaky") →
     arg_blocks a !! "activation" ≠ Some (PyStr "relu") →
     activation (scratch m) = Identity).
Proof.
  split; [|split].
  - intros [p [[[rn1 rn2] rn3] rn4]] Henc.
    split; intros Hact; unfold __init__; cbv zeta;
      rewrite getitem_set_default_activation, (blocks_get_Some _ _ _ _ Hact);
      unfold print, perform; cbn [run_event]; rewrite Henc; reflexivity.
  - intros Hmish Hhard Hleaky Hrelu.
    apply blocks_get_activation_ne in Hmish, Hhard, Hleaky, Hrelu.
    split; [|split].
    + intros [p [[[rn1 rn2] rn3] rn4]] Henc.
      unfold __init__. cbv zeta.
      rewrite getitem_set_default_activation.
      rewrite bind_trace. cbn [print perform fst snd run_event].
      rewrite bind_trace. cbn [perform fst snd run_event]. rewrite Henc.
      cbn beta iota.
      rewrite ret_bind, Hmish, Hhard, Hleaky, Hrelu, bind_trace.
      cbn [new perform fst snd].
      eexists. cbn [app]. reflexivity.
    + intros Hok Hkeys Haux.
      destruct (__init__ a) as [tr [e|m]] eqn:Hinit; cbn [fst snd] in *.
      * exfalso.
        destruct (init_only_fails a tr e Hinit) as [Hown | Hlib];
          [|by destruct (lib_failure_calls_succeed tr e)].
        destruct Hown; contradict_config.
      * exists m. split; [done|].
        apply init_inr in Hinit as (_ & _ & -> & _).
        unfold selected_activation. by rewrite Hleaky, Hrelu.
    + intros tr e Hinit.
      destruct (init_only_fails a tr e Hinit) as [Hown | Hlib]; [|by left].
      destruct Hown; try tauto; congruence.
  - intros tr m Hinit Hleaky Hrelu.
    apply init_inr in Hinit as (_ & _ & -> & _).
    unfold selected_activation.
    by rewrite !blocks_get_activation_ne.
Qed.

(** C10.  In every pass that returns, whatever the mode, the head result is
    multiplied by [scale] and the product added to [shift]; these are the
    only two scalar operations of the pass.  With an auxiliary head the
    pair returned holds that sum and the auxiliary stack's result on
    path_2 resized to the sum's spatial size, untouched by scale or shift;
    without one the sum is returned, squeezed in depth mode. *)
Theorem affine_on_the_main_output_only self x tr v :
  forward self x = (tr, inr v) →
  ∃ r1 path_2 path_1 trH head_out scaled out,
    module_call (scratch_refinenet S1) (refinenet1 (scratch self)) [path_2; r1]
      = inr path_1 ∧
    call_seq scratch_output_conv 0 (output_conv (scratch self)) path_1
      = (trH, inr head_out) ∧
    tensor_mul head_out (scale self) = inr scaled ∧
    tensor_add scaled (shift self) = inr out ∧
    affine_calls tr = [EvMul head_out (scale self); EvAdd scaled (shift self)] ∧
    match auxlayer self with
    | Some aux =>
        ∃ trA raw auxout,
          call_seq auxlayer_item 0 aux path_2 = (trA, inr raw) ∧
          interpolate raw (drop 2 (shape out)) "bilinear" PyTrue = inr auxout ∧
          v = Pair out auxout
    | None =>
        if py_eq (monodepth self) PyTrue
        then ∃ sq, squeeze out 1 = inr sq ∧ v = Single sq
        else v = Single out
    end.
Proof.
  intros Hrun. apply forward_inr in Hrun.
  destruct Hrun as [pre l1 l2 l3 l4 r1 r2 r3 r4 path_4 path_3 path_2 path_1
                      trH head_out scaled out trT v Hpre Hmaps
                      H1 H2 H3 H4 H5 H6 H7 H8 HH Hmul Hadd Htail].
  exists r1, path_2, path_1, trH, head_out, scaled, out.
  repeat split; try done.
  - rewrite !affine_calls_app.
    rewrite (affine_calls_phase pre).
    2:{ eapply Forall_impl; [exact Hpre|]. intros ev [-> | ->]; discriminate. }
    rewrite (affine_calls_phase trH).
    2:{ pose proof (call_seq_phase scratch_output_conv Head 0
                      (output_conv (scratch self)) path_1) as Hh.
        rewrite HH in Hh. eapply Forall_impl; [by apply Hh|].
        intros ev ->; discriminate. }
    rewrite (affine_calls_phase trT).
    2:{ eapply Forall_impl; [by eapply tail_run_phase|].
        intros ev ->; discriminate. }
    reflexivity.
  - destruct Htail as [aux trA raw auxout -> HA Hint | sq -> -> Hsq | -> ->];
      eauto 7.
Qed.

End Results.

(** * Further results *)

Section FurtherResults.
Context {L : TorchLib}.

(** X1.  Construction returns a model exactly when no collaborator call
    fails, the activation is neither "mish" nor "hard_mish", the head
    selection finds its keys and the auxiliary head is not enabled.  When
    no collaborator call fails and it does not return, it raises the
    first that applies of: the unbound name [Mish], the unbound name
    [HardMish], the missing key "widehead", the missing key "widehead_hr",
    the unbound name [features2]. *)
Theorem construction_returns_iff_configured a :
  ((∃ m, (__init__ a).2 = inr m) ↔
     calls_succeed (__init__ a).1 ∧ activation_bound a ∧ head_keys_present a ∧
     blocks_flag (arg_blocks a) "aux" PyTrue = false) ∧
  (calls_succeed (__init__ a).1 →
   ∀ e, (__init__ a).2 = inl e ↔ init_raises a e).
Proof.
  pose proof (init_returns_cleanly a) as Hclean.
  destruct (__init__ a) as [tr [e|m]] eqn:Hinit; cbn [fst snd] in *.
  - assert (calls_succeed tr → init_raises a e) as He.
    { intros Hok. destruct (init_only_fails a tr e Hinit) as [Hown | Hlib]; [done|].
      by destruct (lib_failure_calls_succeed tr e). }
    split.
    + split; [by intros [m Hm] | intros (Hok & Ha & Hk & Haux)].
      exfalso. destruct (He Hok); contradict_config.
    + intros Hok e'. split; [intros [= <-]; by apply He | intros He'].
      f_equal. eapply init_raises_det; [by apply He | done].
  - pose proof Hinit as Hconf.
    apply init_inr in Hconf as (Hm & Hh & _ & Haux & _ & _ & _ & _ & _ & _ & Hkeys & _).
    split.
    + split; [intros _ | intros _; by exists m].
      split; [by apply (Hclean m)|]. by repeat split.
    + intros _ e. split; [discriminate | intros He].
      by destruct (init_raises_not_inr a e tr m).
Qed.

(** X2.  The mapping a constructed model keeps is the caller's with
    "activation": None added when the key was absent, and nothing else
    changed; constructing again from the stored mapping prints and calls
    the same and builds the same model, stored mapping included. *)
Theorem stored_mapping_rebuilds_the_model a tr m :
  __init__ a = (tr, inr m) →
  blocks m !! "activation" = Some (blocks_get (arg_blocks a) "activation" PyNone) ∧
  (∀ k, k ≠ "activation" → blocks m !! k = arg_blocks a !! k) ∧
  (is_Some (arg_blocks a !! "activation") → blocks m = arg_blocks a) ∧
  __init__ (with_blocks (blocks m) a) = (tr, inr m).
Proof.
  intros Hinit. pose proof Hinit as Hb.
  apply init_inr in Hb as (_ & _ & _ & _ & _ & _ & _ & _ & _ & Hb & _).
  rewrite Hb. split; [apply lookup_set_default_activation|].
  split; [intros k Hk; by apply lookup_set_default_activation_ne|].
  split.
  { intros [v Hv]. unfold set_default_activation. by rewrite Hv. }
  pose proof (init_ext a (arg_blocks a) (set_default_activation (arg_blocks a))
                (same_reads_set_default_activation a (arg_blocks a))) as Hsame.
  rewrite with_blocks_id, Hinit in Hsame.
  destruct (__init__ (with_blocks _ a)) as [tr' [e|m']] eqn:Hagain;
    destruct Hsame as [Htr Hm]; cbn in Htr, Hm; [done|].
  subst tr'. f_equal. f_equal. symmetry. apply model_eq; [done|].
  apply init_inr in Hagain as (_ & _ & _ & _ & _ & _ & _ & _ & _ & Hb' & _).
  rewrite Hb, Hb'. cbn [with_blocks arg_blocks].
  symmetry. apply set_default_activation_idemp.
Qed.

(** X3.  A construction that returns asked the encoder factory once, as
    its first call, for pretrained weights exactly when [path] is falsy
    (None or the empty string), and loaded the checkpoint [path] once
    exactly when [path] is truthy: after every sub-module was constructed
    and before the normalisation layers are frozen. *)
Theorem checkpoint_or_pretrained_weights a tr m :
  __init__ a = (tr, inr m) →
  ∃ news rest,
    tr = EvPrint [PyStr "Loading weights: "; arg_path a]
         :: EvMakeEncoder (enc_args a)
         :: news
         ++ (if py_truthy (arg_path a) then [EvLoad (arg_path a)] else [])
         ++ rest ∧
    Forall builds news ∧ Forall freezes rest ∧
    ea_use_pretrained (enc_args a) = negb (py_truthy (arg_path a)) ∧
    loaded m = (if py_truthy (arg_path a) then Some (arg_path a) else None) ∧
    (py_truthy (arg_path a) = true → load (arg_path a) = None).
Proof.
  intros Hinit.
  apply init_built in Hinit
    as (p0 & rn1 & rn2 & rn3 & rn4 & news & head & pre
        & _ & _ & Hnews & -> & Hload & _ & ->).
  exists news, (if blocks_flag (arg_blocks a) "freeze_bn" PyFalse
                then [] else [EvFreezeNorm p0]).
  repeat split; try done.
  destruct (blocks_flag _ _ _); by repeat constructor.
Qed.

(** X4.  The encoder's normalisation layers are frozen by default: a
    constructed model has [freeze_bn] False only when the key "freeze_bn"
    is present and equal to False (an absent key or None keeps it True).
    When it is True the model's encoder is the factory's after the freeze,
    which is the last call of construction; when it is False the encoder
    is the factory's as returned, and construction freezes nothing. *)
Theorem encoder_norms_are_frozen_unless_disabled a tr m :
  __init__ a = (tr, inr m) →
  freeze_bn m = negb (blocks_flag (arg_blocks a) "freeze_bn" PyFalse) ∧
  (arg_blocks a !! "freeze_bn" = None ∨ arg_blocks a !! "freeze_bn" = Some PyNone →
   freeze_bn m = true) ∧
  ∃ p0 rns,
    _make_encoder (enc_args a) = inr (p0, rns) ∧
    if freeze_bn m
    then freeze_norm p0 = inr (pretrained m) ∧ last tr = Some (EvFreezeNorm p0)
    else pretrained m = p0 ∧ Forall (λ ev, ¬ freezes ev) tr.
Proof.
  intros Hinit.
  apply init_built in Hinit
    as (p0 & rn1 & rn2 & rn3 & rn4 & news & head & pre
        & Henc & _ & Hnews & -> & _ & Hpre & ->).
  cbn [freeze_bn pretrained]. split; [done|]. split.
  { unfold blocks_flag. by intros [-> | ->]. }
  exists p0, (rn1, rn2, rn3, rn4). split; [done|].
  destruct (blocks_flag (arg_blocks a) "freeze_bn" PyFalse); cbn [negb].
  - split; [done|]. rewrite app_nil_r.
    apply Forall_cons_2; [by intros []|]. apply Forall_cons_2; [by intros []|].
    apply Forall_app_2.
    + eapply Forall_impl; [exact Hnews|]. intros []; cbn; tauto.
    + destruct (py_truthy (arg_path a)); repeat constructor. by intros [].
  - split; [done|].
    rewrite !app_comm_cons, app_assoc. apply last_snoc.
Qed.

(** X5.  In a constructed model the four fusion blocks have the decoder
    width, the model's one activation module and align_corners; they use
    batch normalisation exactly when "batch_norm" is present and equal to
    True; none is built with deconv, and [expand] is False in refinenet4,
    3 and 2 and not passed to refinenet1, whatever "expand" holds in the
    mapping.  The projections are the encoder factory's, and the head is
    the one the mode and the head keys select, "widehead" before
    "widehead_hr". *)
Theorem decoder_is_built_from_one_activation a tr m :
  __init__ a = (tr, inr m) →
  let fusion (expand : option bool) :=
    FeatureFusionBlock_custom (arg_features a) (activation (scratch m)) false
      (bn m) expand (arg_align_corners a) in
  refinenet4 (scratch m) = fusion (Some false) ∧
  refinenet3 (scratch m) = fusion (Some false) ∧
  refinenet2 (scratch m) = fusion (Some false) ∧
  refinenet1 (scratch m) = fusion None ∧
  bn m = blocks_flag (arg_blocks a) "batch_norm" PyTrue ∧
  expand m = false ∧ groups m = 1 ∧
  selected_head a (activation (scratch m)) = Some (output_conv (scratch m)) ∧
  ∃ p0, _make_encoder (enc_args a)
        = inr (p0, (layer1_rn (scratch m), layer2_rn (scratch m),
                    layer3_rn (scratch m), layer4_rn (scratch m))).
Proof.
  intros Hinit.
  apply init_built in Hinit
    as (p0 & rn1 & rn2 & rn3 & rn4 & news & head & pre
        & Henc & Hhead & _ & _ & _ & _ & ->).
  cbn. repeat split; try done. by exists p0.
Qed.

(** X6.  For a model built outside depth mode and a batch of [b] feature
    maps: a pass that returns, returns one array, of shape
    (b, num_classes, H', W'), whichever of the three heads was selected.
    It is the head result times [scale] plus [shift], with no axis
    removed. *)
Theorem segmentation_forward_has_class_channels
    `{!TorchLaws L} `{!ResizeLaws L} a tr0 self x b tr v :
  __init__ a = (tr0, inr self) →
  py_eq (arg_monodepth a) PyTrue = false →
  feature_map b x →
  forward self x = (tr, inr v) →
  ∃ trH path_1 head_out scaled out H' W',
    call_seq scratch_output_conv 0 (output_conv (scratch self)) path_1
      = (trH, inr head_out) ∧
    tensor_mul head_out (scale self) = inr scaled ∧
    tensor_add scaled (shift self) = inr out ∧
    v = Single out ∧
    shape out = [b; arg_num_classes a; H'; W'].
Proof.
  intros Hinit Hseg Hfx Hrun.
  apply init_built in Hinit
    as (p0 & rn1 & rn2 & rn3 & rn4 & news & head & pre0
        & _ & Hhead & _ & _ & _ & _ & ->).
  apply forward_inr in Hrun.
  destruct Hrun as [pre l1 l2 l3 l4 r1 r2 r3 r4 path_4 path_3 path_2 path_1
                      trH head_out scaled out trT v Hpre Hmaps
                      H1 H2 H3 H4 H5 H6 H7 H8 HH Hmul Hadd Htail].
  cbn [scratch output_conv built_scratch monodepth auxlayer scale shift] in *.
  destruct (backbone_maps_batch _ _ b _ _ _ _ Hmaps Hfx) as (Hl1 & Hl2 & Hl3 & Hl4).
  assert (feature_map b r1) by propagate_batch.
  assert (feature_map b r2) by propagate_batch.
  assert (feature_map b r3) by propagate_batch.
  assert (feature_map b r4) by propagate_batch.
  assert (feature_map b path_4) by propagate_batch.
  assert (feature_map b path_3) by propagate_batch.
  assert (feature_map b path_2) by propagate_batch.
  assert (feature_map b path_1) as Hp1 by propagate_batch.
  assert (∃ H' W', shape head_out = [b; arg_num_classes a; H'; W'])
    as (H' & W' & Hshape).
  { unfold selected_head in Hhead. cbv zeta in Hhead. rewrite Hseg in Hhead.
    destruct (arg_blocks a !! "widehead") as [w|]; [|discriminate Hhead].
    cbn [mbind option_bind] in Hhead. destruct (py_eq w PyTrue).
    - injection Hhead as <-.
      match type of HH with
      | call_seq _ 0 [?m1; ?m2; ?m3; ?m4; ?m5; ?m6] _ = _ =>
          apply (call_seq_snoc _ [m1; m2; m3; m4; m5] m6) in HH
            as (? & z & HH & Hup);
          apply (call_seq_snoc _ [m1; m2; m3; m4] m5) in HH
            as (? & z' & HH & Hconv)
      end.
      pose proof (call_seq_batch _ _ _ _ _ _ b HH Hp1) as Hz'.
      destruct (conv2d_out_channels _ _ _ _ _ _ _ _ _ _ b Hconv Hz')
        as (h & w' & Hz).
      by eapply interpolate_module_channels.
    - destruct (arg_blocks a !! "widehead_hr") as [whr|]; [|discriminate Hhead].
      cbn [mbind option_bind] in Hhead.
      destruct (py_eq whr PyTrue); injection Hhead as <-;
        match type of HH with
        | call_seq _ 0 [?m1; ?m2; ?m3; ?m4] _ = _ =>
            apply (call_seq_snoc _ [m1; m2; m3] m4) in HH
              as (? & z' & HH & Hconv)
        end;
        pose proof (call_seq_batch _ _ _ _ _ _ b HH Hp1) as Hz';
        by eapply conv2d_out_channels. }
  destruct Htail as [aux trA raw auxout Hsome _ _ | sq _ Hdepth _ | _ _];
    [discriminate Hsome | cbn in Hdepth; congruence |].
  exists trH, path_1, head_out, scaled, out, H', W'.
  repeat split; try done.
  apply tensor_add_shape in Hadd. apply tensor_mul_shape in Hmul. congruence.
Qed.

(** X7.  On a model that has an auxiliary head, whatever its mode, a pass
    that returns, returns the pair: the first array keeps every axis of
    the head result (it is not squeezed, even in depth mode), and the
    second has the spatial size of the first. *)
Theorem auxiliary_output_has_the_size_of_the_main_output
    `{!TorchLaws L} `{!ResizeLaws L} self x aux tr v :
  auxlayer self = Some aux →
  forward self x = (tr, inr v) →
  ∃ trH path_1 head_out out auxout,
    call_seq scratch_output_conv 0 (output_conv (scratch self)) path_1
      = (trH, inr head_out) ∧
    v = Pair out auxout ∧
    shape out = shape head_out ∧
    drop 2 (shape auxout) = drop 2 (shape out).
Proof.
  intros Haux Hrun. apply forward_inr in Hrun.
  destruct Hrun as [pre l1 l2 l3 l4 r1 r2 r3 r4 path_4 path_3 path_2 path_1
                      trH head_out scaled out trT v Hpre Hmaps
                      H1 H2 H3 H4 H5 H6 H7 H8 HH Hmul Hadd Htail].
  destruct Htail as [aux' trA raw auxout _ _ Hint | sq Hnone _ _ | Hnone _];
    [|congruence..].
  exists trH, path_1, head_out, out, auxout.
  split; [done|]. split; [done|]. split.
  - apply tensor_add_shape in Hadd. apply tensor_mul_shape in Hmul. congruence.
  - by eapply interpolate_size.
Qed.

(** X8.  In every pass, failing or not, the calls are made phase by phase:
    the print and the conversion of the input, the backbone, the
    projections and fusion blocks, the head, scale and shift, then the
    auxiliary stack and its resizing or the squeeze.  A pass constructs,
    loads and freezes nothing. *)
Theorem forward_goes_through_its_phases_in_order self x :
  phases_in_order (forward self x).1 ∧
  Forall (λ ev, phase ev ≠ Construction) (forward self x).1.
Proof.
  destruct (forward_staged self x) as [Hord Hin]. split; [done|].
  eapply Forall_impl; [exact Hin|]. intros ev [_ Hev] Hc.
  unfold rank in Hev. rewrite Hc in Hev. cbn in Hev. lia.
Qed.

(** X9.  The input reaches the output through the four feature maps of
    the backbone only: two inputs with the same four maps give the same
    outcome, the value returned or the exception raised (the conversion
    of the input, when the flag asks for one, must return). *)
Theorem output_depends_on_the_input_through_the_backbone
    self x x' l1 l2 l3 l4 :
  conversion_ok self x → conversion_ok self x' →
  backbone_maps self x l1 l2 l3 l4 →
  backbone_maps self x' l1 l2 l3 l4 →
  (forward self x).2 = (forward self x').2.
Proof.
  intros Hc Hc' Hm Hm'. unfold forward.
  match goal with
  | |- (?P ≫= (λ _, ?B ≫= ?K)).2 = (?P' ≫= (λ _, ?B' ≫= _)).2 =>
      assert (P.2 = inr tt) as HP by converted Hc;
      assert (P'.2 = inr tt) as HP' by converted Hc';
      assert (B.2 = inr (Some (l1, l2, l3, l4))) as HB by extracted Hm;
      assert (B'.2 = inr (Some (l1, l2, l3, l4))) as HB' by extracted Hm';
      rewrite (bind_result P), HP, (bind_result B), HB;
      rewrite (bind_result P'), HP', (bind_result B'), HB'
  end.
  reflexivity.
Qed.

(** X10.  A pass returns exactly when the encoder object is of one of the
    two kinds the backbone step reads (a [model] with [patch_size], or no
    [model] and the four layer attributes) and no collaborator call of
    the pass fails. *)
Theorem forward_returns_iff_encoder_usable_and_calls_succeed self x :
  (∃ v, (forward self x).2 = inr v) ↔
  encoder_usable (pretrained self) ∧ calls_succeed (forward self x).1.
Proof.
  split.
  - intros [v Hv]. split; [|by eapply forward_returns_cleanly].
    destruct (forward self x) as [tr r] eqn:Hrun. cbn in Hv. subst r.
    apply forward_inr in Hrun. destruct Hrun. by eapply backbone_maps_usable.
  - intros [Husable Hok]. by apply forward_returns.
Qed.

End FurtherResults.

(** * The results on the symbolic library *)

Lemma depth_forward_is_squeezed_affine_head_witness :
  __init__ (L:=Sym.lib) default_args = (default_init_trace, inr vit_depth_model) ∧
  py_eq (arg_monodepth default_args) PyTrue = true ∧
  @shape Sym.lib image64 = [2; 3; 64; 64] ∧
  encoder_usable (pretrained vit_depth_model) ∧
  calls_succeed (forward (L:=Sym.lib) vit_depth_model image64).1 ∧
  ∃ tr v,
    forward (L:=Sym.lib) vit_depth_model image64 = (tr, inr v) ∧
    ∃ sq H' W', v = Single sq ∧ @shape Sym.lib sq = [2; H'; W'].
Proof.
  split; [exact default_init|].
  split; [reflexivity|]. split; [reflexivity|].
  split; [left; by eexists _, _|].
  split; [vm_compute; reflexivity|].
  eexists _, _. split; [rewrite depth_pass_eq; reflexivity|].
  destruct (depth_forward_is_squeezed_affine_head (L:=Sym.lib) default_args
              _ _ image64 2 64 64 default_init eq_refl eq_refl) as (_ & _ & Hret).
  edestruct Hret as (r1 & p2 & p1 & trH & ho & sc & out & sq & H' & W' & Hrest);
    [rewrite depth_pass_eq; reflexivity|].
  exists sq, H', W'. tauto.
Defined.

Lemma projections_then_top_down_fusion_witness :
  ∃ tr v,
    forward (L:=Sym.lib) vit_depth_model image64 = (tr, inr v) ∧
    stage_calls tr = top_down.
Proof.
  eexists _, _. split; [rewrite depth_pass_eq; reflexivity|].
  destruct (projections_then_top_down_fusion (L:=Sym.lib) vit_depth_model image64)
    as [_ Hret].
  edestruct Hret as [Hcalls _]; [rewrite depth_pass_eq; reflexivity|].
  exact Hcalls.
Defined.

(** C3 (fails as stated).  In segmentation mode construction
    succeeds when both head keys are present, and fails with a lookup
    failure once "widehead" is left out.  And an absent "activation" does
    not stand for the "relu" of the signature's mapping: the model built
    from the empty mapping has the identity activation. *)
Lemma absent_widehead_fails_construction :
  ((∃ tr m, __init__ (L:=Sym.lib) seg_full_args = (tr, inr m)) ∧
   arg_blocks seg_no_widehead_args = delete "widehead" (arg_blocks seg_full_args) ∧
   (__init__ (L:=Sym.lib) seg_no_widehead_args).2 = inl (KeyError "widehead")) ∧
  (default_blocks !! "activation" = Some (PyStr "relu") ∧
   activation (scratch vit_depth_model) = ReLU false ∧
   ∃ tr m, __init__ (L:=Sym.lib) empty_args = (tr, inr m) ∧
           activation (scratch m) = Identity).
Proof.
  split.
  - split; [eexists _, _; rewrite seg_full_init_eq; reflexivity|].
    split; [reflexivity|]. reflexivity.
  - split; [reflexivity|]. split; [reflexivity|].
    eexists _, _. split; [rewrite empty_init_eq; reflexivity|]. reflexivity.
Qed.

Lemma optional_and_ignored_keys_witness :
  absent_defaults ⊆ absent_defaults ∧
  same_construction (__init__ (L:=Sym.lib) empty_args)
    (__init__ (L:=Sym.lib) (with_blocks (arg_blocks empty_args ∪ absent_defaults) empty_args)) ∧
  (∀ k, k ∈ consulted default_args →
        arg_blocks extra_key_args !! k = arg_blocks default_args !! k) ∧
  same_construction (__init__ (L:=Sym.lib) default_args)
    (__init__ (L:=Sym.lib) (with_blocks (arg_blocks extra_key_args) default_args)) ∧
  py_eq (arg_monodepth seg_no_widehead_args) PyTrue = false ∧
  arg_blocks seg_no_widehead_args !! "widehead" = None ∧
  (∀ tr m, __init__ (L:=Sym.lib) seg_no_widehead_args ≠ (tr, inr m)).
Proof.
  assert (∀ k, k ∈ consulted default_args →
        arg_blocks extra_key_args !! k = arg_blocks default_args !! k) as Hsame.
  { intros k Hk. cbn. apply lookup_insert_ne. intros <-.
    vm_compute in Hk. repeat (apply elem_of_cons in Hk as [Hk | Hk]; [discriminate|]).
    by apply elem_of_nil in Hk. }
  assert (arg_blocks seg_no_widehead_args !! "widehead" = None) as Hnone
    by reflexivity.
  split; [reflexivity|].
  split.
  { destruct (optional_and_ignored_keys (L:=Sym.lib) empty_args) as [Hdefaults _].
    by apply Hdefaults. }
  split; [assumption|].
  split.
  { destruct (optional_and_ignored_keys (L:=Sym.lib) default_args)
      as (_ & Hignored & _).
    by apply Hignored. }
  split; [reflexivity|]. split; [assumption|].
  destruct (optional_and_ignored_keys (L:=Sym.lib) seg_no_widehead_args)
    as (_ & _ & Hfails).
  by apply Hfails.
Defined.

Lemma aux_head_is_never_constructed_witness :
  blocks_flag (arg_blocks aux_args) "aux" PyTrue = true ∧
  activation_bound aux_args ∧
  head_keys_present aux_args ∧
  calls_succeed (__init__ (L:=Sym.lib) aux_args).1 ∧
  (__init__ (L:=Sym.lib) aux_args).2 = inl (NameError "features2").
Proof.
  assert (blocks_flag (arg_blocks aux_args) "aux" PyTrue = true) as Haux
    by reflexivity.
  assert (activation_bound aux_args) as Hact by (split; reflexivity).
  assert (head_keys_present aux_args) as Hkeys by (by left).
  assert (calls_succeed (__init__ (L:=Sym.lib) aux_args).1) as Hok
    by (vm_compute; reflexivity).
  repeat (split; [assumption|]).
  by apply (aux_head_is_never_constructed (L:=Sym.lib) aux_args Haux).
Defined.

Lemma model_without_patch_size_leaves_layers_unbound_witness :
  py_eq (channels_last layered_model) PyTrue = false ∧
  model (pretrained layered_model) = Some {| patch_size := None |} ∧
  is_Some (layer1 (pretrained layered_model)) ∧
  is_Some (layer2 (pretrained layered_model)) ∧
  is_Some (layer3 (pretrained layered_model)) ∧
  is_Some (layer4 (pretrained layered_model)) ∧
  forward (L:=Sym.lib) layered_model image64
  = ([], inl (UnboundLocalError "layer_1")).
Proof.
  repeat (split; [first [reflexivity | by eexists]|]).
  by apply (model_without_patch_size_leaves_layers_unbound (L:=Sym.lib)
              layered_model image64 {| patch_size := None |}).
Defined.

Lemma missing_widehead_hr_is_a_lookup_failure_witness :
  py_eq (arg_monodepth seg_args) PyTrue = false ∧
  arg_blocks seg_args !! "widehead" = Some PyFalse ∧
  py_eq PyFalse PyTrue = false ∧
  arg_blocks seg_args !! "widehead_hr" = None ∧
  activation_bound seg_args ∧
  calls_succeed (__init__ (L:=Sym.lib) seg_args).1 ∧
  (__init__ (L:=Sym.lib) seg_args).2 = inl (KeyError "widehead_hr").
Proof.
  assert (arg_blocks seg_args !! "widehead" = Some PyFalse) as Hw by reflexivity.
  assert (arg_blocks seg_args !! "widehead_hr" = None) as Hwhr by reflexivity.
  assert (activation_bound seg_args) as Hact by (split; reflexivity).
  assert (calls_succeed (__init__ (L:=Sym.lib) seg_args).1) as Hok
    by (vm_compute; reflexivity).
  split; [reflexivity|]. split; [assumption|]. split; [reflexivity|].
  repeat (split; [assumption|]).
  by apply (missing_widehead_hr_is_a_lookup_failure (L:=Sym.lib) seg_args PyFalse
              eq_refl Hw eq_refl Hwhr).
Defined.

Lemma forward_raises_nothing_of_its_own_witness :
  ∃ tr e,
    forward (L:=Sym.lib) vit_depth_model short_image = (tr, inl e) ∧
    (lib_failure tr e ∨ encoder_unusable (pretrained vit_depth_model) e).
Proof.
  eexists _, _. split; [rewrite short_pass_eq; reflexivity|].
  apply (forward_raises_nothing_of_its_own (L:=Sym.lib) vit_depth_model short_image).
  rewrite short_pass_eq; reflexivity.
Defined.

Lemma channels_last_does_not_reach_the_output_witness :
  __init__ (L:=Sym.lib) default_args = (default_init_trace, inr vit_depth_model) ∧
  __init__ (L:=Sym.lib) (with_arg_channels_last PyTrue default_args)
    = (default_init_trace, inr (with_channels_last PyTrue vit_depth_model)) ∧
  ∃ tr tr' v v',
    forward (L:=Sym.lib) (with_channels_last PyTrue vit_depth_model) image64
      = (tr, inr v) ∧
    forward (L:=Sym.lib) (with_channels_last PyFalse vit_depth_model) image64
      = (tr', inr v') ∧
    tr ≠ tr' ∧ v = v'.
Proof.
  destruct (channels_last_does_not_reach_the_output (L:=Sym.lib)
              vit_depth_model image64 PyTrue) as (Hbuilt & _ & Hsame).
  split; [exact default_init|].
  split; [exact (Hbuilt default_args default_init_trace default_init)|].
  eexists _, _, _, _.
  split; [rewrite channels_last_pass_eq; reflexivity|].
  split; [rewrite plain_pass_eq; reflexivity|].
  split; [discriminate|].
  eapply (Hsame PyFalse).
  - rewrite channels_last_pass_eq; reflexivity.
  - rewrite plain_pass_eq; reflexivity.
Defined.

Lemma activation_selection_witness :
  (∃ enc, _make_encoder (TorchLib:=Sym.lib) (enc_args mish_args) = inr enc) ∧
  arg_blocks mish_args !! "activation" = Some (PyStr "mish") ∧
  (__init__ (L:=Sym.lib) mish_args).2 = inl (NameError "Mish") ∧
  arg_blocks hard_mish_args !! "activation" = Some (PyStr "hard_mish") ∧
  (__init__ (L:=Sym.lib) hard_mish_args).2 = inl (NameError "HardMish") ∧
  arg_blocks gelu_args !! "activation" = Some (PyStr "gelu") ∧
  calls_succeed (__init__ (L:=Sym.lib) gelu_args).1 ∧
  head_keys_present gelu_args ∧
  blocks_flag (arg_blocks gelu_args) "aux" PyTrue = false ∧
  [EvPrint [PyStr "Loading weights: "; arg_path gelu_args];
   EvMakeEncoder (enc_args gelu_args);
   EvNew Identity] `prefix_of` (__init__ (L:=Sym.lib) gelu_args).1 ∧
  (∃ m, (__init__ (L:=Sym.lib) gelu_args).2 = inr m ∧
        activation (scratch m) = Identity) ∧
  arg_blocks empty_args !! "activation" = None ∧
  ∃ tr m, __init__ (L:=Sym.lib) empty_args = (tr, inr m) ∧
          activation (scratch m) = Identity.
Proof.
  assert (arg_blocks mish_args !! "activation" = Some (PyStr "mish")) as Hm
    by reflexivity.
  assert (arg_blocks hard_mish_args !! "activation" = Some (PyStr "hard_mish"))
    as Hh by reflexivity.
  assert (arg_blocks gelu_args !! "activation" = Some (PyStr "gelu")) as Hg
    by reflexivity.
  assert (calls_succeed (__init__ (L:=Sym.lib) gelu_args).1) as Hok
    by (vm_compute; reflexivity).
  assert (head_keys_present gelu_args) as Hkeys by (by left).
  split; [eexists; reflexivity|]. split; [assumption|].
  split.
  { destruct (activation_selection (L:=Sym.lib) mish_args) as [Hraise _].
    edestruct Hraise as [Hmish _]; [reflexivity|]. by rewrite (Hmish Hm). }
  split; [assumption|].
  split.
  { destruct (activation_selection (L:=Sym.lib) hard_mish_args) as [Hraise _].
    edestruct Hraise as [_ Hhard]; [reflexivity|]. by rewrite (Hhard Hh). }
  split; [assumption|]. split; [assumption|]. split; [assumption|].
  split; [reflexivity|].
  destruct (activation_selection (L:=Sym.lib) gelu_args) as (_ & Hother & _).
  destruct Hother as (Hnext & Hbuilt & _);
    [rewrite Hg; discriminate.. |].
  split; [eapply Hnext; reflexivity|].
  split; [by apply Hbuilt|].
  split; [reflexivity|].
  eexists _, _. split; [rewrite empty_init_eq; reflexivity|].
  destruct (activation_selection (L:=Sym.lib) empty_args) as (_ & _ & Hid).
  eapply Hid; [rewrite empty_init_eq; reflexivity | discriminate | discriminate].
Defined.

Lemma affine_on_the_main_output_only_witness :
  ∃ tr out auxout,
    forward (L:=Sym.lib) aux_model image64 = (tr, inr (Pair out auxout)) ∧
    @shape Sym.lib out = [2; 1; 64; 64] ∧
    @shape Sym.lib auxout = [2; 150; 64; 64] ∧
    ∃ head_out scaled,
      tensor_mul head_out (scale aux_model) = inr scaled ∧
      tensor_add scaled (shift aux_model) = inr out ∧
      affine_calls tr
      = [EvMul head_out (scale aux_model); EvAdd scaled (shift aux_model)].
Proof.
  eexists _, _, _. split; [rewrite aux_pass_eq; reflexivity|].
  split; [reflexivity|]. split; [reflexivity|].
  edestruct (affine_on_the_main_output_only (L:=Sym.lib) aux_model image64)
    as (r1 & p2 & p1 & trH & ho & sc & out & _ & _ & Hmul & Hadd & Hcalls & Hret);
    [rewrite aux_pass_eq; reflexivity|].
  destruct Hret as (trA & raw & auxout & _ & _ & [= <- _]).
  by exists ho, sc.
Defined.

(** * The further results on the symbolic library *)

Lemma construction_returns_iff_configured_witness :
  calls_succeed (__init__ (L:=Sym.lib) default_args).1 ∧
  (∃ m, (__init__ (L:=Sym.lib) default_args).2 = inr m) ∧
  calls_succeed (__init__ (L:=Sym.lib) seg_args).1 ∧
  (__init__ (L:=Sym.lib) seg_args).2 = inl (KeyError "widehead_hr").
Proof.
  assert (calls_succeed (__init__ (L:=Sym.lib) default_args).1) as Hok
    by (vm_compute; reflexivity).
  assert (calls_succeed (__init__ (L:=Sym.lib) seg_args).1) as Hok'
    by (vm_compute; reflexivity).
  split; [exact Hok|]. split.
  { apply (construction_returns_iff_configured (L:=Sym.lib) default_args).
    split; [exact Hok|]. split; [split; reflexivity|].
    split; [by left | reflexivity]. }
  split; [exact Hok'|].
  apply (construction_returns_iff_configured (L:=Sym.lib) seg_args); [exact Hok'|].
  apply (raises_widehead_hr seg_args PyFalse); try reflexivity.
  split; reflexivity.
Defined.

Lemma stored_mapping_rebuilds_the_model_witness :
  __init__ (L:=Sym.lib) empty_args = (empty_trace, inr empty_model) ∧
  arg_blocks empty_args !! "activation" = None ∧
  blocks empty_model !! "activation" = Some PyNone ∧
  __init__ (L:=Sym.lib) (with_blocks (blocks empty_model) empty_args)
  = (empty_trace, inr empty_model).
Proof.
  destruct (stored_mapping_rebuilds_the_model (L:=Sym.lib) empty_args
              empty_trace empty_model empty_init_built)
    as (Hact & _ & _ & Hagain).
  split; [exact empty_init_built|]. split; [reflexivity|].
  split; [exact Hact | exact Hagain].
Defined.

Lemma checkpoint_or_pretrained_weights_witness :
  __init__ (L:=Sym.lib) checkpoint_args = (checkpoint_trace, inr checkpoint_model) ∧
  py_truthy (arg_path checkpoint_args) = true ∧
  ∃ news rest,
    checkpoint_trace
    = EvPrint [PyStr "Loading weights: "; arg_path checkpoint_args]
      :: EvMakeEncoder (enc_args checkpoint_args)
      :: news ++ [EvLoad (arg_path checkpoint_args)] ++ rest ∧
    ea_use_pretrained (enc_args checkpoint_args) = false ∧
    loaded checkpoint_model = Some (arg_path checkpoint_args).
Proof.
  destruct (checkpoint_or_pretrained_weights (L:=Sym.lib) checkpoint_args
              checkpoint_trace checkpoint_model checkpoint_init)
    as (news & rest & Htr & _ & _ & Hpre & Hloaded & _).
  split; [exact checkpoint_init|]. split; [reflexivity|].
  exists news, rest. split; [exact Htr|]. split; [exact Hpre | exact Hloaded].
Defined.

Lemma encoder_norms_are_frozen_unless_disabled_witness :
  __init__ (L:=Sym.lib) unfrozen_args = (unfrozen_trace, inr unfrozen_model) ∧
  blocks_flag (arg_blocks unfrozen_args) "freeze_bn" PyFalse = true ∧
  freeze_bn unfrozen_model = false ∧
  ∃ p0 rns,
    _make_encoder (TorchLib:=Sym.lib) (enc_args unfrozen_args) = inr (p0, rns) ∧
    pretrained unfrozen_model = p0 ∧
    Forall (λ ev, ¬ freezes ev) unfrozen_trace.
Proof.
  destruct (encoder_norms_are_frozen_unless_disabled (L:=Sym.lib) unfrozen_args
              unfrozen_trace unfrozen_model unfrozen_init)
    as (Hflag & _ & p0 & rns & Henc & Hkept).
  split; [exact unfrozen_init|]. split; [reflexivity|].
  split; [exact Hflag|]. exists p0, rns. split; [exact Henc | exact Hkept].
Defined.

Lemma decoder_is_built_from_one_activation_witness :
  __init__ (L:=Sym.lib) expand_args = (expand_trace, inr expand_model) ∧
  arg_blocks expand_args !! "expand" = Some PyTrue ∧
  refinenet4 (scratch expand_model)
  = FeatureFusionBlock_custom 256 (ReLU false) false false (Some false) PyTrue ∧
  refinenet1 (scratch expand_model)
  = FeatureFusionBlock_custom 256 (ReLU false) false false None PyTrue ∧
  expand expand_model = false.
Proof.
  destruct (decoder_is_built_from_one_activation (L:=Sym.lib) expand_args
              expand_trace expand_model expand_init)
    as (H4 & _ & _ & H1 & _ & Hexpand & _).
  split; [exact expand_init|]. split; [reflexivity|].
  split; [exact H4|]. split; [exact H1 | exact Hexpand].
Defined.

Lemma segmentation_forward_has_class_channels_witness :
  __init__ (L:=Sym.lib) seg_full_args = (seg_init_trace, inr seg_model) ∧
  py_eq (arg_monodepth seg_full_args) PyTrue = false ∧
  feature_map (H:=Sym.lib) 2 image64 ∧
  ∃ tr v,
    forward (L:=Sym.lib) seg_model image64 = (tr, inr v) ∧
    ∃ out H' W', v = Single out ∧ @shape Sym.lib out = [2; 150; H'; W'].
Proof.
  assert (feature_map (H:=Sym.lib) 2 image64) as Hx by (by exists 3, 64, 64).
  split; [exact seg_init|]. split; [reflexivity|]. split; [exact Hx|].
  eexists _, _. split; [rewrite seg_pass_eq; reflexivity|].
  edestruct (segmentation_forward_has_class_channels (L:=Sym.lib) seg_full_args
               seg_init_trace seg_model image64 2)
    as (trH & p1 & ho & sc & out & H' & W' & _ & _ & _ & Hv & Hshape);
    [exact seg_init | reflexivity | exact Hx
    | rewrite seg_pass_eq; reflexivity |].
  by exists out, H', W'.
Defined.

Lemma auxiliary_output_has_the_size_of_the_main_output_witness :
  auxlayer aux_model = Some (aux_stack 256 150) ∧
  py_eq (monodepth aux_model) PyTrue = true ∧
  ∃ tr v,
    forward (L:=Sym.lib) aux_model image64 = (tr, inr v) ∧
    ∃ out auxout,
      v = Pair out auxout ∧
      drop 2 (@shape Sym.lib auxout) = drop 2 (@shape Sym.lib out).
Proof.
  split; [reflexivity|]. split; [reflexivity|].
  eexists _, _. split; [rewrite aux_pass_eq; reflexivity|].
  edestruct (auxiliary_output_has_the_size_of_the_main_output (L:=Sym.lib)
               aux_model image64 (aux_stack 256 150))
    as (trH & p1 & ho & out & auxout & _ & Hv & _ & Hsize);
    [reflexivity | rewrite aux_pass_eq; reflexivity |].
  by exists out, auxout.
Defined.

Lemma output_depends_on_the_input_through_the_backbone_witness :
  image64 ≠ image65 ∧
  conversion_ok (L:=Sym.lib) vit_depth_model image64 ∧
  conversion_ok (L:=Sym.lib) vit_depth_model image65 ∧
  ∃ l1 l2 l3 l4,
    backbone_maps (L:=Sym.lib) vit_depth_model image64 l1 l2 l3 l4 ∧
    backbone_maps (L:=Sym.lib) vit_depth_model image65 l1 l2 l3 l4 ∧
    (forward (L:=Sym.lib) vit_depth_model image64).2
    = (forward (L:=Sym.lib) vit_depth_model image65).2.
Proof.
  assert (conversion_ok (L:=Sym.lib) vit_depth_model image64) as Hc by discriminate.
  assert (conversion_ok (L:=Sym.lib) vit_depth_model image65) as Hc' by discriminate.
  split; [discriminate|]. split; [exact Hc|]. split; [exact Hc'|].
  eexists _, _, _, _.
  split; [by eapply via_hooks|]. split; [by eapply via_hooks|].
  eapply (output_depends_on_the_input_through_the_backbone (L:=Sym.lib)
            vit_depth_model image64 image65);
    [exact Hc | exact Hc' | by eapply via_hooks | by eapply via_hooks].
Defined.
